(** * MedChat conversation export: the program [ExportConversationPDF.tsx]

    The component [ExportConversationPDF] lays a chat transcript out on the
    pages of a jsPDF document: a header band, one block per message (sender
    band, optional timestamp, body text with inline bold runs, optional
    reference list), a footer on every page, and a download of the result.

    The first part follows the source function by function.
    - A JavaScript string is its sequence of UTF-16 code units.
    - A number is an exact rational: the cursor arithmetic of the source
      adds small integers, which doubles represent exactly.
    - The jsPDF document is a record with its graphics state and the list
      of items drawn so far, each on its page; the drawing code runs in a
      state monad over the cursor [yPosition] and the document.
    - What the browser and jsPDF supply (page size, text metrics, line
      splitting, the clock and the date formatters) is the record [Env];
      [new Date()] denotes one moment for the whole export.
    - The jsPDF calls are taken not to throw.

    The second part names what the statements talk about, the third proves
    them. *)

From Stdlib Require Import String Ascii DecimalString.
From Stdlib Require Import Bool Arith NArith ZArith QArith Lia Lqa List.
Import ListNotations.

(** * The program *)

(** ** JavaScript strings *)

Module JS.

(** A JavaScript string is a sequence of UTF-16 code units. *)
Abbreviation char := N (only parsing).
Abbreviation jsstring := (list N) (only parsing).

(** A string literal of the source whose characters are all ASCII. *)
Definition js (s : string) : jsstring :=
  map N_of_ascii (list_ascii_of_string s).

(** Number-to-string conversion inside a template literal, for the
    non-negative integers the source formats ([i], [pageCount], [idx + 1]). *)
Definition ofNat (n : nat) : jsstring :=
  js (NilEmpty.string_of_uint (Nat.to_uint n)).

Definition LF : char := 10%N.
Definition STAR : char := 42%N.
Definition UNDERSCORE : char := 95%N.
Definition COMMA : char := 44%N.
Definition UPPER_T : char := 84%N.

(** ECMAScript LineTerminator: LF, CR, U+2028, U+2029. *)
Definition isLineTerminator (c : char) : bool :=
  (c =? 10)%N || (c =? 13)%N || (c =? 8232)%N || (c =? 8233)%N.

(** ECMAScript WhiteSpace: TAB, VT, FF, SP, NBSP, ZWNBSP and category Zs. *)
Definition isWhiteSpace (c : char) : bool :=
  (c =? 9)%N || (c =? 11)%N || (c =? 12)%N || (c =? 32)%N || (c =? 160)%N
  || (c =? 5760)%N || ((8192 <=? c)%N && (c <=? 8202)%N)
  || (c =? 8239)%N || (c =? 8287)%N || (c =? 12288)%N || (c =? 65279)%N.

Definition isTrimmed (c : char) : bool := isWhiteSpace c || isLineTerminator c.

Fixpoint dropWhile (p : char -> bool) (s : jsstring) : jsstring :=
  match s with
  | [] => []
  | c :: r => if p c then dropWhile p r else s
  end.

(** [String.prototype.trim]. *)
Definition trim (s : jsstring) : jsstring :=
  rev (dropWhile isTrimmed (rev (dropWhile isTrimmed s))).

(** Truthiness of a string: the empty string is falsy. *)
Definition truthy (s : jsstring) : bool :=
  match s with [] => false | _ :: _ => true end.

(** [s.substring(from, to)]: indices are clamped to the length and swapped
    when [from > to]. *)
Definition substring (s : jsstring) (from to : nat) : jsstring :=
  firstn (Nat.max from to - Nat.min from to) (skipn (Nat.min from to) s).

(** [s.substring(from)]. *)
Definition substringFrom (s : jsstring) (from : nat) : jsstring :=
  skipn from s.

(** [s.split(sep)] for a separator of one code unit; the result always has
    at least one element. *)
Fixpoint split (sep : char) (s : jsstring) : list jsstring :=
  match s with
  | [] => [[]]
  | c :: r =>
      if (c =? sep)%N then [] :: split sep r
      else match split sep r with
           | piece :: pieces => (c :: piece) :: pieces
           | [] => [[c]]
           end
  end.

(** [s.split(sep)[0]]. *)
Definition splitHead (sep : char) (s : jsstring) : jsstring :=
  hd [] (split sep s).

(** The character class [[a-z0-9]] under the [i] flag (no [u] flag):
    canonicalisation never maps a code unit above 127 to an ASCII one, so
    the class holds exactly the ASCII letters and digits. *)
Definition isAlnum (c : char) : bool :=
  ((48 <=? c)%N && (c <=? 57)%N)
  || ((65 <=? c)%N && (c <=? 90)%N)
  || ((97 <=? c)%N && (c <=? 122)%N).

(** [s.replace(/[^a-z0-9]/gi, "_")]: every code unit outside the class is
    replaced, one by one. *)
Definition replaceNonAlnum (s : jsstring) : jsstring :=
  map (fun c => if isAlnum c then c else UNDERSCORE) s.

End JS.
Import JS.

(** ** The regular expression [/\*\*(.*?)\*\*/g] *)

Module BoldRegex.

(** A successful [exec]: [index] is [match.index], [capture] is [match[1]]
    and [matchLength] is [match[0].length]. *)
Record Match := {
  index : nat;
  capture : jsstring;
  matchLength : nat
}.

(** The lazy group followed by the closing marker, tried on the text right
    after an opening marker: the capture grows one code unit at a time, [.]
    refuses a line terminator, and the first position where [**] follows is
    taken.  Returns the capture. *)
Fixpoint lazyUntilClose (s : jsstring) : option jsstring :=
  match s with
  | a :: tl =>
      match tl with
      | b :: _ =>
          if (a =? STAR)%N && (b =? STAR)%N then Some []
          else if isLineTerminator a then None
          else option_map (cons a) (lazyUntilClose tl)
      | [] => None
      end
  | [] => None
  end.

(** The leftmost match in [s]; the offset of the match is relative to the
    start of [s]. *)
Fixpoint search (s : jsstring) : option (nat * jsstring) :=
  match s with
  | a :: tl =>
      let next := option_map (fun m => (S (fst m), snd m)) (search tl) in
      match tl with
      | b :: rest =>
          if (a =? STAR)%N && (b =? STAR)%N then
            match lazyUntilClose rest with
            | Some c => Some (O, c)
            | None => next
            end
          else next
      | [] => None
      end
  | [] => None
  end.

(** [boldRegex.exec(line)] with [boldRegex.lastIndex = lastIndex]. *)
Definition exec (line : jsstring) (lastIndex : nat) : option Match :=
  match search (skipn lastIndex line) with
  | Some (offset, c) =>
      Some {| index := lastIndex + offset;
              capture := c;
              matchLength := 2 + length c + 2 |}
  | None => None
  end.

End BoldRegex.

(** ** Styled runs and the inline tokenizer (source lines 155-178) *)

Record Part := { text : jsstring; bold : bool }.

Definition plainPart (s : jsstring) : Part := {| text := s; bold := false |}.
Definition boldPart (s : jsstring) : Part := {| text := s; bold := true |}.

(** The [while ((match = boldRegex.exec(line)) !== null)] loop.  The regex's
    own [lastIndex] and the variable [lastIndex] of the source coincide,
    since a match is never empty.  [fuel] bounds the number of iterations;
    [tokenize] supplies more than the loop can use. *)
Fixpoint tokenizeLoop (fuel : nat) (line : jsstring) (lastIndex : nat)
    (parts : list Part) : list Part * nat :=
  match fuel with
  | O => (parts, lastIndex)
  | S fuel' =>
      match BoldRegex.exec line lastIndex with
      | None => (parts, lastIndex)
      | Some m =>
          let parts1 :=
            if lastIndex <? BoldRegex.index m
            then parts ++ [plainPart (substring line lastIndex (BoldRegex.index m))]
            else parts in
          let parts2 := parts1 ++ [boldPart (BoldRegex.capture m)] in
          tokenizeLoop fuel' line
            (BoldRegex.index m + BoldRegex.matchLength m) parts2
      end
  end.

Definition tokenize (line : jsstring) : list Part :=
  let '(parts, lastIndex) := tokenizeLoop (S (length line)) line 0 [] in
  let parts :=
    if lastIndex <? length line
    then parts ++ [plainPart (substringFrom line lastIndex)]
    else parts in
  if length parts =? 0 then parts ++ [plainPart line] else parts.

(** ** The jsPDF document *)

Inductive FontStyle := Normal | Bold.

Definition Color := (N * N * N)%type.

(** What ends up on a page.  Each item carries the graphics state it was
    drawn under (fill colour; font style, font size and text colour). *)
Inductive Item :=
| Rect (x y w h : Q) (fill : Color)
| RoundedRect (x y w h rx ry : Q) (fill : Color)
| Text (s : jsstring) (x y : Q) (style : FontStyle) (size : Q) (color : Color)
| TextWithLink (s : jsstring) (x y : Q) (link : jsstring)
    (style : FontStyle) (size : Q) (color : Color).

Record Doc := {
  fontStyle : FontStyle;
  fontSize : Q;
  fillColor : Color;
  textColor : Color;
  pageCount : nat;            (* [doc.internal.pages.length - 1] *)
  currentPage : nat;
  items : list (nat * Item)   (* page number and item, in drawing order *)
}.

(** The mutable state of one export: the cursor [yPosition] of
    [exportToPDF] and the document it draws on. *)
Record State := { yPosition : Q; doc : Doc }.

(** What the host supplies. *)
Record Env := {
  pageWidth : Q;     (* [doc.internal.pageSize.getWidth()] *)
  pageHeight : Q;    (* [doc.internal.pageSize.getHeight()] *)
  textWidth : FontStyle -> Q -> jsstring -> Q;
                     (* [doc.getTextWidth] under a font style and size *)
  splitTextToSize : Q -> jsstring -> Q -> list jsstring;
                     (* [splitTextToSize] of a fresh document at a font size *)
  nowLocaleDateString : jsstring;   (* [new Date().toLocaleDateString()] *)
  nowISOString : jsstring;          (* [new Date().toISOString()] *)
  dateToLocaleString : jsstring -> jsstring
                     (* [new Date(s).toLocaleString("en-US", {...})] *)
}.

(** [a > b] on numbers. *)
Definition Qgtb (a b : Q) : bool := negb (Qle_bool a b).

(** ** A state monad for the drawing code *)

Definition M (A : Type) : Type := State -> A * State.

Definition ret {A} (a : A) : M A := fun st => (a, st).

Definition bind {A B} (m : M A) (k : A -> M B) : M B :=
  fun st => let (a, st') := m st in k a st'.

Declare Scope pdf_scope.
Delimit Scope pdf_scope with pdf.
Notation "x <- m ;; k" := (bind m (fun x => k))
  (at level 61, m at next level, right associativity) : pdf_scope.
Notation "m ;; k" := (bind m (fun _ => k))
  (at level 61, right associativity) : pdf_scope.
Open Scope pdf_scope.
Open Scope Q_scope.

Definition run {A} (m : M A) (st : State) : State := snd (m st).

(** [for (const a of l) body(a)]. *)
Fixpoint forEach {A} (l : list A) (body : A -> M unit) : M unit :=
  match l with
  | [] => ret tt
  | a :: r => body a ;; forEach r body
  end.

(** [for (let idx = start; ...; idx++) body(idx, l[idx - start])]. *)
Fixpoint forEachIndexed {A} (idx : nat) (l : list A)
    (body : nat -> A -> M unit) : M unit :=
  match l with
  | [] => ret tt
  | a :: r => body idx a ;; forEachIndexed (S idx) r body
  end.

(** A loop over [l] that updates local variables [s]. *)
Fixpoint foldM {A S} (l : list A) (s : S) (body : S -> A -> M S) : M S :=
  match l with
  | [] => ret s
  | a :: r => s' <- body s a ;; foldM r s' body
  end.

Definition getY : M Q := fun st => (yPosition st, st).
Definition setY (y : Q) : M unit :=
  fun st => (tt, {| yPosition := y; doc := doc st |}).
Definition onDoc (f : Doc -> Doc) : M unit :=
  fun st => (tt, {| yPosition := yPosition st; doc := f (doc st) |}).

(** [yPosition += h]. *)
Definition advance (h : Q) : M unit := y <- getY ;; setY (y + h).

Module Pdf.

(** [new jsPDF(...)]: one empty page, helvetica normal at 16pt, black. *)
Definition new : Doc :=
  {| fontStyle := Normal; fontSize := 16;
     fillColor := (0, 0, 0)%N; textColor := (0, 0, 0)%N;
     pageCount := 1; currentPage := 1; items := [] |}.

Definition draw (it : Item) (d : Doc) : Doc :=
  {| fontStyle := fontStyle d; fontSize := fontSize d;
     fillColor := fillColor d; textColor := textColor d;
     pageCount := pageCount d; currentPage := currentPage d;
     items := items d ++ [(currentPage d, it)] |}.

Definition setFillColor (c : Color) : M unit :=
  onDoc (fun d =>
    {| fontStyle := fontStyle d; fontSize := fontSize d;
       fillColor := c; textColor := textColor d;
       pageCount := pageCount d; currentPage := currentPage d;
       items := items d |}).

Definition setTextColor (c : Color) : M unit :=
  onDoc (fun d =>
    {| fontStyle := fontStyle d; fontSize := fontSize d;
       fillColor := fillColor d; textColor := c;
       pageCount := pageCount d; currentPage := currentPage d;
       items := items d |}).

Definition setFontSize (size : Q) : M unit :=
  onDoc (fun d =>
    {| fontStyle := fontStyle d; fontSize := size;
       fillColor := fillColor d; textColor := textColor d;
       pageCount := pageCount d; currentPage := currentPage d;
       items := items d |}).

(** [doc.setFont("helvetica", style)]. *)
Definition setFont (style : FontStyle) : M unit :=
  onDoc (fun d =>
    {| fontStyle := style; fontSize := fontSize d;
       fillColor := fillColor d; textColor := textColor d;
       pageCount := pageCount d; currentPage := currentPage d;
       items := items d |}).

(** [doc.addPage()]: a new last page, which becomes the current one. *)
Definition addPage : M unit :=
  onDoc (fun d =>
    {| fontStyle := fontStyle d; fontSize := fontSize d;
       fillColor := fillColor d; textColor := textColor d;
       pageCount := S (pageCount d); currentPage := S (pageCount d);
       items := items d |}).

Definition setPage (i : nat) : M unit :=
  onDoc (fun d =>
    {| fontStyle := fontStyle d; fontSize := fontSize d;
       fillColor := fillColor d; textColor := textColor d;
       pageCount := pageCount d; currentPage := i;
       items := items d |}).

Definition getPageCount : M nat := fun st => (pageCount (doc st), st).

(** [doc.rect(x, y, w, h, "F")]. *)
Definition rect (x y w h : Q) : M unit :=
  onDoc (fun d => draw (Rect x y w h (fillColor d)) d).

(** [doc.roundedRect(x, y, w, h, rx, ry, "F")]. *)
Definition roundedRect (x y w h rx ry : Q) : M unit :=
  onDoc (fun d => draw (RoundedRect x y w h rx ry (fillColor d)) d).

Definition text (s : jsstring) (x y : Q) : M unit :=
  onDoc (fun d => draw (Text s x y (fontStyle d) (fontSize d) (textColor d)) d).

(** [doc.textWithLink(s, x, y, { url })]. *)
Definition textWithLink (s : jsstring) (x y : Q) (link : jsstring) : M unit :=
  onDoc (fun d =>
    draw (TextWithLink s x y link (fontStyle d) (fontSize d) (textColor d)) d).

Definition getTextWidth (env : Env) (s : jsstring) : M Q :=
  fun st => (textWidth env (fontStyle (doc st)) (fontSize (doc st)) s, st).

End Pdf.

(** ** The component's input *)

Inductive Role := user | assistant.

Record SearchResult := {
  title : jsstring;
  url : jsstring;
  snippet : jsstring;
  date : option jsstring
}.

Record Message := {
  id : jsstring;
  role : Role;
  content : jsstring;
  citations : option (list jsstring);
  searchResults : option (list SearchResult);
  createdAt : option jsstring
}.

Record ExportConversationPDFProps := {
  conversationTitle : jsstring;
  messages : list Message;
  userName : option jsstring      (* defaults to ["User"] *)
}.

(** What the component does to its surroundings. *)
Inductive Event :=
| ToastError (msg : jsstring)
| ToastSuccess (msg : jsstring)
| SetIsExporting (b : bool)
| Save (filename : jsstring) (d : Doc).

(** ** [exportToPDF] *)

Section Exporter.

Variable env : Env.

(** [formatDate(dateStr?)]; [!dateStr] holds for [undefined] and for the
    empty string. *)
Definition formatDate (dateStr : option jsstring) : jsstring :=
  match dateStr with
  | Some s => if truthy s then dateToLocaleString env s
              else nowLocaleDateString env
  | None => nowLocaleDateString env
  end.

(** [wrapText(text, maxWidth, fontSize)]. *)
Definition wrapText (s : jsstring) (width fontSize : Q) : list jsstring :=
  splitTextToSize env fontSize s width.

Definition margin : Q := 15.
Definition maxWidth : Q := pageWidth env - 2 * margin.

(** [checkNewPage(requiredSpace)] (source lines 73-80). *)
Definition checkNewPage (requiredSpace : Q) : M bool :=
  y <- getY ;;
  if Qgtb (y + requiredSpace) (pageHeight env - margin - 10)
  then Pdf.addPage ;; setY margin ;; ret true
  else ret false.

(** The header band of the first page (source lines 82-97). *)
Definition renderHeader (conversationTitle : jsstring) : M unit :=
  Pdf.setFillColor (52, 73, 94)%N ;;
  Pdf.rect 0 0 (pageWidth env) 35 ;;
  Pdf.setTextColor (255, 255, 255)%N ;;
  Pdf.setFontSize 18 ;;
  Pdf.setFont Bold ;;
  Pdf.text (js "MedChat - Medical Consultation") margin 15 ;;
  Pdf.setFontSize 11 ;;
  Pdf.setFont Normal ;;
  let titleText :=
    if truthy conversationTitle then conversationTitle
    else js "Conversation" in
  Pdf.text (substring titleText 0 80) margin 23 ;;
  Pdf.text (js "Exported: " ++ formatDate None) margin 29 ;;
  setY 42.

(** Drawing one visual line: the block that the source has twice, at lines
    192-199 and 214-221, each time under [currentLineParts.length > 0]. *)
Definition drawLineParts (currentLineParts : list Part) : M unit :=
  checkNewPage 6 ;;
  foldM currentLineParts (margin + 3) (fun xPos p =>
    Pdf.setFont (if bold p then Bold else Normal) ;;
    y <- getY ;;
    Pdf.text (text p) xPos y ;;
    w <- Pdf.getTextWidth env (text p) ;;
    ret (xPos + w)) ;;
  advance 6.

Definition drawLineIfAny (currentLineParts : list Part) : M unit :=
  if (0 <? length currentLineParts)%nat then drawLineParts currentLineParts
  else ret tt.

(** One iteration of [for (const part of parts)] (source lines 184-210); the
    loop's variables are [(currentLineText, currentLineParts)]. *)
Definition wrapStep (cur : jsstring * list Part) (part : Part)
    : M (jsstring * list Part) :=
  let testText := fst cur ++ text part in
  Pdf.setFont Normal ;;
  testWidth <- Pdf.getTextWidth env testText ;;
  if Qgtb testWidth (maxWidth - 6) then
    drawLineIfAny (snd cur) ;;
    ret (text part, [part])
  else
    ret (testText, snd cur ++ [part]).

(** Source lines 180-222. *)
Definition renderParts (parts : list Part) : M unit :=
  cur <- foldM parts ([], []) wrapStep ;;
  drawLineIfAny (snd cur).

(** The body of [for (const line of lines)] (source lines 146-223). *)
Definition renderLine (line : jsstring) : M unit :=
  if negb (truthy (trim line)) then
    checkNewPage 5 ;;
    advance 5
  else
    renderParts (tokenize line).

(** The timestamp of a message header (source lines 127-134). *)
Definition renderTimestamp (message : Message) : M unit :=
  match createdAt message with
  | Some stamp =>
      if truthy stamp then
        Pdf.setFont Normal ;;
        Pdf.setFontSize 8 ;;
        Pdf.setTextColor (120, 120, 120)%N ;;
        let timeText := formatDate (Some stamp) in
        timeWidth <- Pdf.getTextWidth env timeText ;;
        y <- getY ;;
        Pdf.text timeText (pageWidth env - margin - timeWidth - 3) (y + 5.5)
      else ret tt
  | None => ret tt
  end.

(** The sender band of a message (source lines 104-124). *)
Definition renderSender (userName : jsstring) (message : Message) : M unit :=
  let isUser := match role message with user => true | assistant => false end in
  checkNewPage 15 ;;
  (if isUser then Pdf.setFillColor (240, 248, 255)%N
   else Pdf.setFillColor (248, 250, 252)%N) ;;
  y <- getY ;;
  Pdf.roundedRect margin y maxWidth 8 2 2 ;;
  Pdf.setFontSize 10 ;;
  Pdf.setFont Bold ;;
  (if isUser then Pdf.setTextColor (41, 98, 255)%N
   else Pdf.setTextColor (34, 139, 34)%N) ;;
  let senderName := if isUser then userName else js "MedChat AI" in
  y <- getY ;;
  Pdf.text senderName (margin + 3) (y + 5.5).

(** One entry of the reference list (source lines 238-260). *)
Definition renderReference (idx : nat) (result : SearchResult) : M unit :=
  checkNewPage 12 ;;
  Pdf.setFont Bold ;;
  Pdf.setFontSize 9 ;;
  Pdf.setTextColor (0, 0, 0)%N ;;
  let titleText := ofNat (idx + 1) ++ js ". " ++ title result in
  let titleLines := wrapText titleText (maxWidth - 10) 9 in
  forEach titleLines (fun titleLine =>
    checkNewPage 5 ;;
    y <- getY ;;
    Pdf.text titleLine (margin + 6) y ;;
    advance 5) ;;
  Pdf.setFont Normal ;;
  Pdf.setFontSize 8 ;;
  Pdf.setTextColor (41, 98, 255)%N ;;
  checkNewPage 4 ;;
  y <- getY ;;
  Pdf.textWithLink (url result) (margin + 6) y (url result) ;;
  advance 5.

(** The reference list of a message (source lines 227-263). *)
Definition renderReferences (message : Message) : M unit :=
  match searchResults message with
  | Some results =>
      if (0 <? length results)%nat then
        checkNewPage 10 ;;
        Pdf.setFontSize 9 ;;
        Pdf.setFont Bold ;;
        Pdf.setTextColor (70, 70, 70)%N ;;
        y <- getY ;;
        Pdf.text (js "References:") (margin + 3) y ;;
        advance 6 ;;
        forEachIndexed 0 results renderReference ;;
        advance 3
      else ret tt
  | None => ret tt
  end.

(** The body of the loop over [messages] (source lines 100-267). *)
Definition renderMessage (userName : jsstring) (message : Message) : M unit :=
  renderSender userName message ;;
  renderTimestamp message ;;
  advance 10 ;;
  Pdf.setTextColor (0, 0, 0)%N ;;
  Pdf.setFontSize 10 ;;
  forEach (split LF (content message)) renderLine ;;
  advance 3 ;;
  renderReferences message ;;
  advance 5.

(** The footer of page [i] (source lines 271-281). *)
Definition renderFooter (pageCount i : nat) : M unit :=
  Pdf.setPage i ;;
  Pdf.setFontSize 8 ;;
  Pdf.setTextColor (150, 150, 150)%N ;;
  Pdf.setFont Normal ;;
  let footerText :=
    js "Page " ++ ofNat i ++ js "/" ++ ofNat pageCount
    ++ js " | MedChat Medical AI | " ++ splitHead COMMA (formatDate None) in
  footerWidth <- Pdf.getTextWidth env footerText ;;
  Pdf.text footerText ((pageWidth env - footerWidth) / 2) (pageHeight env - 8).

Definition renderFooters : M unit :=
  pageCount <- Pdf.getPageCount ;;
  forEach (seq 1 pageCount) (renderFooter pageCount).

Definition userNameOrDefault (props : ExportConversationPDFProps) : jsstring :=
  match userName props with Some n => n | None => js "User" end.

(** The single forward pass: header, then every message in order. *)
Definition layout (props : ExportConversationPDFProps) : M unit :=
  renderHeader (conversationTitle props) ;;
  forEach (messages props) (renderMessage (userNameOrDefault props)).

(** The state [exportToPDF] starts from: a fresh document and
    [let yPosition = margin]. *)
Definition initialState : State := {| yPosition := margin; doc := Pdf.new |}.

(** Everything drawn by one export. *)
Definition render (props : ExportConversationPDFProps) : State :=
  run (layout props ;; renderFooters) initialState.

(** Source lines 284-287. *)
Definition sanitizedTitle (conversationTitle : jsstring) : jsstring :=
  substring (replaceNonAlnum conversationTitle) 0 50.

Definition filename (conversationTitle : jsstring) : jsstring :=
  js "MedChat_" ++ sanitizedTitle conversationTitle ++ js "_"
  ++ splitHead UPPER_T (nowISOString env) ++ js ".pdf".

(** [exportToPDF] as the list of its effects on the surroundings, in order.
    The jsPDF calls are taken not to throw, so the [catch] branch is not
    represented; [finally] contributes the last event. *)
Definition exportToPDF (props : ExportConversationPDFProps) : list Event :=
  if (length (messages props) =? 0)%nat then
    [ToastError (js "No messages to export")]
  else
    [SetIsExporting true;
     Save (filename (conversationTitle props)) (doc (render props));
     ToastSuccess (js "Conversation exported successfully!");
     SetIsExporting false].

End Exporter.

(** ** The button (source lines 300-316) *)

(** What the component shows: whether the button is disabled, whether the
    spinner replaces the download icon, and the caption. *)
Record ButtonView := {
  disabled : bool;
  spinning : bool;
  caption : jsstring
}.

Definition view (isExporting : bool) (props : ExportConversationPDFProps)
    : ButtonView :=
  {| disabled := isExporting || (length (messages props) =? 0)%nat;
     spinning := isExporting;
     caption := if isExporting then js "Exporting..." else js "Export to PDF" |}.

(** ** A concrete host: an A4 portrait page in millimetres *)

Module A4.

(** The advance widths of Helvetica and of Helvetica-Bold for the code
    units 32 to 126, in thousandths of the font size (Adobe's font metrics,
    which jsPDF carries for its standard fonts). *)
Definition helvetica : list Z :=
  [278; 278; 355; 556; 556; 889; 667; 191; 333; 333; 389; 584; 278; 333; 278; 278;
   556; 556; 556; 556; 556; 556; 556; 556; 556; 556; 278; 278; 584; 584; 584; 556;
   1015; 667; 667; 722; 722; 667; 611; 778; 722; 278; 500; 667; 556; 833; 722; 778;
   667; 778; 722; 667; 611; 722; 667; 944; 667; 667; 611; 278; 278; 278; 469; 556;
   333; 556; 556; 500; 556; 556; 278; 556; 556; 222; 222; 500; 222; 833; 556; 556;
   556; 556; 333; 500; 278; 556; 500; 722; 500; 500; 500; 334; 260; 334; 584]%Z.

Definition helveticaBold : list Z :=
  [278; 333; 474; 556; 556; 889; 722; 238; 333; 333; 389; 584; 278; 333; 278; 278;
   556; 556; 556; 556; 556; 556; 556; 556; 556; 556; 333; 333; 584; 584; 584; 611;
   975; 722; 722; 722; 722; 667; 611; 778; 722; 278; 556; 722; 611; 833; 722; 778;
   667; 778; 722; 667; 611; 722; 667; 944; 667; 667; 611; 333; 278; 333; 584; 556;
   333; 556; 611; 556; 611; 556; 333; 611; 611; 278; 278; 556; 278; 889; 611; 611;
   611; 611; 389; 556; 333; 611; 556; 778; 556; 556; 500; 389; 280; 389; 584]%Z.

(** The advance width of one code unit; outside the table a code unit
    counts as a digit does. *)
Definition glyphWidth (style : FontStyle) (c : char) : Z :=
  if (32 <=? c)%N && (c <=? 126)%N then
    nth (N.to_nat (c - 32))
        (match style with Normal => helvetica | Bold => helveticaBold end) 556%Z
  else 556%Z.

(** [getTextWidth]: the advance widths of the string, times the font size,
    in millimetres (one millimetre is 72/25.4 points); kerning, which moves
    a pair of glyphs by a few thousandths, is left out. *)
Definition helveticaWidth (style : FontStyle) (size : Q) (s : jsstring) : Q :=
  inject_Z (fold_right (fun c acc => (glyphWidth style c + acc)%Z) 0%Z s)
  * size * (254 # 720000).

(** jsPDF's A4 page is 595.28pt by 841.89pt; the sizes are the doubles that
    dividing by 72/25.4 gives, 210.0015555555555 and 297.0000833333333.
    Reference titles are taken to fit on one line, the clock and the date
    formatters are fixed. *)
Definition env : Env :=
  {| pageWidth := 3694386434950095 # 17592186044416;
     pageHeight := 5224880721207055 # 17592186044416;
     textWidth := helveticaWidth;
     splitTextToSize := fun _ s _ => [s];
     nowLocaleDateString := js "11/2/2026";
     nowISOString := js "2026-11-02T09:30:00.000Z";
     dateToLocaleString := fun _ => js "Jan 15, 2024, 10:30 AM" |}.

Definition hello : Message :=
  {| id := js "m1"; role := user; content := js "hi";
     citations := None; searchResults := None; createdAt := None |}.

(** A message whose body is 44 empty lines. *)
Definition spacer : Message :=
  {| id := js "m2"; role := assistant; content := repeat LF 43;
     citations := None; searchResults := None; createdAt := None |}.

Definition request (ms : list Message) : ExportConversationPDFProps :=
  {| conversationTitle := js "T"; messages := ms; userName := None |}.

End A4.

(** * Vocabulary of the statements *)

(** ** Effects and drawn text *)

Definition isSave (e : Event) : bool :=
  match e with Save _ _ => true | _ => false end.

Definition itemText (it : Item) : list jsstring :=
  match it with
  | Text s _ _ _ _ _ => [s]
  | TextWithLink s _ _ _ _ _ _ => [s]
  | _ => []
  end.

(** The strings drawn so far, in drawing order. *)
Definition drawnTexts (st : State) : list jsstring :=
  flat_map (fun entry => itemText (snd entry)) (items (doc st)).

(** The vertical position of a drawn string. *)
Definition textBaseline (it : Item) : option Q :=
  match it with
  | Text _ _ y _ _ _ => Some y
  | TextWithLink _ _ y _ _ _ _ => Some y
  | _ => None
  end.

(** The lowest coordinate an item reaches: the bottom edge of a band, the
    baseline of a string. *)
Definition itemBottom (it : Item) : Q :=
  match it with
  | Rect _ y _ h _ => y + h
  | RoundedRect _ y _ h _ _ _ => y + h
  | Text _ _ y _ _ _ => y
  | TextWithLink _ _ y _ _ _ _ => y
  end.

(** [pageHeight - bottomMargin - reserve]. *)
Definition usableBottom (env : Env) : Q := pageHeight env - margin - 10.

(** The label drawn in the band of a message. *)
Definition senderLabel (userName : jsstring) (m : Message) : jsstring :=
  match role m with user => userName | assistant => js "MedChat AI" end.

(** ** File names *)

(** The characters [[A-Za-z0-9_]]. *)
Definition isWordChar (c : char) : bool :=
  existsb (N.eqb c)
    (map N_of_ascii (list_ascii_of_string
       "ABCDEFGHIJKLMNOPQRSTUVWXYZabcdefghijklmnopqrstuvwxyz0123456789_")).

(** ** Runs and markers *)

Definition marker : jsstring := [STAR; STAR].

(** Writing a run back as source text: a bold run between two markers, a
    plain run as it is. *)
Definition unparsePart (p : Part) : jsstring :=
  if bold p then marker ++ text p ++ marker else text p.

Definition unparse (parts : list Part) : jsstring := flat_map unparsePart parts.

(** The text contains [**] somewhere. *)
Fixpoint hasMarker (s : jsstring) : bool :=
  match s with
  | a :: tl =>
      match tl with
      | b :: _ => ((a =? STAR)%N && (b =? STAR)%N) || hasMarker tl
      | [] => false
      end
  | [] => false
  end.

(** A bold run holds no marker and no line terminator. *)
Definition CleanBold (p : Part) : Prop :=
  bold p = true ->
  hasMarker (text p) = false /\ existsb isLineTerminator (text p) = false.

(** ** Citations *)

Definition withoutCitations (m : Message) : Message :=
  {| id := id m; role := role m; content := content m;
     citations := None;
     searchResults := searchResults m; createdAt := createdAt m |}.

(** Two messages that agree on every field but [citations]. *)
Definition sameButCitations (m1 m2 : Message) : Prop :=
  withoutCitations m1 = withoutCitations m2.

(** ** Visual lines *)

Definition lineIfAny (currentLineParts : list Part) : list (list Part) :=
  if (0 <? length currentLineParts)%nat then [currentLineParts] else [].

(** The visual lines that the loop at source lines 184-222 draws, as a
    function of the measurement [width] it applies to [testText].  That the
    loop draws exactly these lines is proved below. *)
Fixpoint packRuns (width : jsstring -> Q) (limit : Q) (parts : list Part)
    (currentLineText : jsstring) (currentLineParts : list Part)
    : list (list Part) :=
  match parts with
  | [] => lineIfAny currentLineParts
  | part :: rest =>
      let testText := currentLineText ++ text part in
      if Qgtb (width testText) limit then
        lineIfAny currentLineParts ++ packRuns width limit rest (text part) [part]
      else
        packRuns width limit rest testText (currentLineParts ++ [part])
  end.

(** The loop from a given value of its variables, followed by the final
    drawing of what is left. *)
Definition renderFrom (env : Env) (parts : list Part)
    (cur : list N * list Part) : M unit :=
  cur' <- foldM parts cur (wrapStep env) ;;
  drawLineIfAny env (snd cur').

Definition partStyle (p : Part) : FontStyle := if bold p then Bold else Normal.

(** The width of a candidate line when every run is measured under the
    style it is drawn with, as the specification words it. *)
Definition styledWidth (env : Env) (size : Q) (line : list Part) : Q :=
  fold_right (fun p acc => textWidth env (partStyle p) size (text p) + acc) 0 line.

(** Packing as the specification words it: the overflow test uses
    [styledWidth]. *)
Fixpoint packRunsStyled (env : Env) (size limit : Q) (parts : list Part)
    (currentLineParts : list Part) : list (list Part) :=
  match parts with
  | [] => lineIfAny currentLineParts
  | part :: rest =>
      if Qgtb (styledWidth env size (currentLineParts ++ [part])) limit then
        lineIfAny currentLineParts ++ packRunsStyled env size limit rest [part]
      else
        packRunsStyled env size limit rest (currentLineParts ++ [part])
  end.

(** Ten plain letters [a] followed by a bold run of 75 letters [b]. *)
Definition wideBoldParts : list Part :=
  [plainPart (repeat 97%N 10); boldPart (repeat 98%N 75)].

(** The state in which a message body is drawn: the font size is 10. *)
Definition bodyState : State := run (Pdf.setFontSize 10) initialState.

(** ** Pages, links and footers *)

(** A list of page numbers that never goes back. *)
Fixpoint ascending (l : list nat) : Prop :=
  match l with
  | a :: tl =>
      match tl with
      | b :: _ => (a <= b)%nat /\ ascending tl
      | [] => True
      end
  | [] => True
  end.

(** The document has a page, the current page is the last one, every item
    is on an existing page, and the items were drawn page after page. *)
Definition PagesValid (st : State) : Prop :=
  (1 <= pageCount (doc st))%nat
  /\ currentPage (doc st) = pageCount (doc st)
  /\ Forall (fun entry => (1 <= fst entry <= pageCount (doc st))%nat)
            (items (doc st))
  /\ ascending (map fst (items (doc st))).

(** A link region leads to the address it displays. *)
Definition linkShown (it : Item) : Prop :=
  match it with
  | TextWithLink s _ _ link _ _ _ => link = s
  | _ => True
  end.

Definition LinksShown (st : State) : Prop :=
  Forall (fun entry => linkShown (snd entry)) (items (doc st)).

(** The footer of page [i] out of [pageCount] (source lines 278-280). *)
Definition footerText (env : Env) (pageCount i : nat) : jsstring :=
  js "Page " ++ ofNat i ++ js "/" ++ ofNat pageCount
  ++ js " | MedChat Medical AI | " ++ splitHead COMMA (formatDate env None).

Definition footerItem (env : Env) (pageCount i : nat) : nat * Item :=
  (i, Text (footerText env pageCount i)
           ((pageWidth env - textWidth env Normal 8 (footerText env pageCount i)) / 2)
           (pageHeight env - 8) Normal 8 (150, 150, 150)%N).

(** ** Lines of a message *)

(** [pieces.join(sep)] for a separator of one code unit. *)
Fixpoint join (sep : char) (pieces : list jsstring) : jsstring :=
  match pieces with
  | [] => []
  | piece :: rest =>
      match rest with
      | [] => piece
      | _ :: _ => piece ++ sep :: join sep rest
      end
  end.

(** No two plain runs follow each other. *)
Fixpoint noAdjacentPlain (parts : list Part) : Prop :=
  match parts with
  | p :: tl =>
      match tl with
      | q :: _ => (bold p = true \/ bold q = true) /\ noAdjacentPlain tl
      | [] => True
      end
  | [] => True
  end.

(** The last run, if any, is bold. *)
Definition lastBold (parts : list Part) : Prop :=
  bold (last parts (boldPart [])) = true.

(** A plain run has some text. *)
Definition plainHasText (p : Part) : Prop := bold p = false -> text p <> [].

(** The items of one visual line: every run on the baseline [y], the first
    at [x], each next one where the previous one ends when measured under
    its own style. *)
Fixpoint placeRuns (env : Env) (page : nat) (y size : Q) (color : Color)
    (x : Q) (parts : list Part) : list (nat * Item) :=
  match parts with
  | [] => []
  | p :: rest =>
      (page, Text (text p) x y (partStyle p) size color)
      :: placeRuns env page y size color
           (x + textWidth env (partStyle p) size (text p)) rest
  end.

(** ** Assertions on states *)

(** Triples over [M]: from a state with [P], [m] returns a value and a
    state with [Q].  Every computation of [M] returns. *)
Definition hoare {A} (P : State -> Prop) (m : M A) (Q : A -> State -> Prop)
    : Prop :=
  forall st, P st -> Q (fst (m st)) (snd (m st)).

(** The strings drawn so far are [l]. *)
Definition TextsAre (l : list jsstring) (st : State) : Prop := drawnTexts st = l.

Definition SizeIs (size : Q) (st : State) : Prop := fontSize (doc st) = size.

(** Every item drawn so far has the property [ok]. *)
Definition Safe (ok : Item -> Prop) (st : State) : Prop :=
  Forall (fun entry => ok (snd entry)) (items (doc st)).

(** The items so far are fine and a block of height [r] fits between the
    cursor and the bound. *)
Definition Fits (env : Env) (ok : Item -> Prop) (r : Q) (st : State) : Prop :=
  Safe ok st /\ yPosition st + r <= usableBottom env.

(** ** The text of a transcript *)

(** The time string of a message header, when there is one. *)
Definition timestampTexts (env : Env) (m : Message) : list jsstring :=
  match createdAt m with
  | Some stamp => if truthy stamp then [formatDate env (Some stamp)] else []
  | None => []
  end.

(** The strings of one logical line: its runs, or nothing for a spacer. *)
Definition lineTexts (line : jsstring) : list jsstring :=
  if truthy (trim line) then map text (tokenize line) else [].

(** The strings of the reference numbered [idx + 1]: the lines of its
    title, then its address. *)
Definition referenceTexts (env : Env) (idx : nat) (result : SearchResult)
    : list jsstring :=
  wrapText env (ofNat (idx + 1) ++ js ". " ++ title result) (maxWidth env - 10) 9
  ++ [url result].

Fixpoint referenceListTexts (env : Env) (idx : nat) (results : list SearchResult)
    : list jsstring :=
  match results with
  | [] => []
  | result :: rest =>
      referenceTexts env idx result ++ referenceListTexts env (S idx) rest
  end.

Definition referencesTexts (env : Env) (m : Message) : list jsstring :=
  match searchResults m with
  | Some (result :: rest) =>
      js "References:" :: referenceListTexts env 0 (result :: rest)
  | _ => []
  end.

Definition messageTexts (env : Env) (userName : jsstring) (m : Message)
    : list jsstring :=
  senderLabel userName m :: timestampTexts env m
  ++ flat_map lineTexts (split LF (content m))
  ++ referencesTexts env m.

Definition headerTexts (env : Env) (conversationTitle : jsstring)
    : list jsstring :=
  [js "MedChat - Medical Consultation";
   substring (if truthy conversationTitle then conversationTitle
              else js "Conversation") 0 80;
   js "Exported: " ++ formatDate env None].

(** [m] draws the strings [t], in this order, whatever was drawn before. *)
Definition Draws {A} (m : M A) (t : list jsstring) : Prop :=
  forall l, hoare (TextsAre l) m (fun _ => TextsAre (l ++ t)).

(** * Properties *)

(** ** Basic facts *)

Lemma Qgtb_true_iff (a b : Q) : Qgtb a b = true <-> b < a.
Proof.
  unfold Qgtb. rewrite negb_true_iff. split; intro H.
  - apply Qnot_le_lt. intro L. apply Qle_bool_iff in L. congruence.
  - destruct (Qle_bool a b) eqn:E; [|reflexivity].
    apply Qle_bool_iff in E. apply Qlt_not_le in H. contradiction.
Qed.

Lemma Qgtb_false_iff (a b : Q) : Qgtb a b = false <-> a <= b.
Proof.
  unfold Qgtb. rewrite negb_false_iff. apply Qle_bool_iff.
Qed.

(** ** The empty transcript *)

(** C1. An export request with no messages only raises the error toast
    "No messages to export": no document is created or drawn on, and
    nothing is saved. *)
Theorem exportToPDF_empty_fails_fast :
  forall (env : Env) (props : ExportConversationPDFProps),
    messages props = [] ->
    exportToPDF env props = [ToastError (js "No messages to export")]
    /\ existsb isSave (exportToPDF env props) = false.
Proof.
  intros env props H. unfold exportToPDF. rewrite H. split; reflexivity.
Qed.

Lemma exportToPDF_empty_fails_fast_witness :
  exportToPDF A4.env (A4.request []) = [ToastError (js "No messages to export")]
  /\ existsb isSave (exportToPDF A4.env (A4.request [])) = false.
Proof.
  apply (exportToPDF_empty_fails_fast A4.env (A4.request [])). reflexivity.
Defined.

(** ** The space check *)

(** C2. [checkNewPage h] breaks the page exactly when the cursor plus [h]
    exceeds [pageHeight - margin - 10].  When it breaks it returns [true],
    a page has been added and the cursor is the top margin; otherwise it
    returns [false] and nothing has changed. *)
Theorem checkNewPage_breaks_iff_overflow :
  forall (env : Env) (h : Q) (st : State),
    let r := checkNewPage env h st in
    (fst r = true <-> pageHeight env - margin - 10 < yPosition st + h)
    /\ (fst r = true ->
        yPosition (snd r) = margin
        /\ pageCount (doc (snd r)) = S (pageCount (doc st))
        /\ currentPage (doc (snd r)) = S (pageCount (doc st))
        /\ items (doc (snd r)) = items (doc st))
    /\ (fst r = false -> snd r = st).
Proof.
  intros env h st. cbv zeta.
  unfold checkNewPage, bind, getY.
  destruct (Qgtb (yPosition st + h) (pageHeight env - margin - 10)) eqn:E; cbn.
  - apply Qgtb_true_iff in E. repeat split; auto; discriminate.
  - apply Qgtb_false_iff in E. repeat split; try discriminate; auto.
    intro L. apply Qlt_not_le in L. contradiction.
Qed.

(** ** The file name *)

Lemma isAlnum_isWordChar (c : char) : isAlnum c = true -> isWordChar c = true.
Proof.
  unfold isAlnum. intro H.
  assert (B : (c <= 122)%N).
  { repeat (apply orb_prop in H; destruct H as [H|H]);
      apply andb_prop in H; destruct H as [_ H]; apply N.leb_le in H; lia. }
  assert (K : forall n, (n <= 122)%nat -> isAlnum (N.of_nat n) = true ->
                        isWordChar (N.of_nat n) = true).
  { intros n Hn. do 123 (destruct n as [|n]; [vm_compute; auto|]). lia. }
  rewrite <- (N2Nat.id c). apply K; [lia|]. rewrite N2Nat.id. exact H.
Qed.

Lemma nth_map_within {A B} (f : A -> B) (l : list A) (d : B) (d' : A) (i : nat) :
  (i < length l)%nat -> nth i (map f l) d = f (nth i l d').
Proof.
  revert i. induction l as [|a l IH]; intros i Hi; cbn in *; [lia|].
  destruct i; [reflexivity|]. apply IH. lia.
Qed.

Lemma split_head_no_sep (sep : char) (s : jsstring) :
  Forall (fun c => c <> sep) (splitHead sep s).
Proof.
  unfold splitHead. induction s as [|c r IH]; cbn; [constructor|].
  destruct (N.eqb_spec c sep) as [E|E]; cbn; [constructor|].
  destruct (split sep r) as [|piece pieces]; cbn in *.
  - repeat constructor; assumption.
  - constructor; assumption.
Qed.

(** [split(sep)[0]] is what stands before the first separator. *)
Lemma splitHead_before_sep (sep : char) (head rest : jsstring) :
  ~ In sep head -> splitHead sep (head ++ sep :: rest) = head.
Proof.
  unfold splitHead. induction head as [|c head IH]; intro H; cbn [app split].
  - rewrite N.eqb_refl. reflexivity.
  - destruct (N.eqb_spec c sep) as [E|E]; [exfalso; apply H; left; exact E|].
    assert (H' : ~ In sep head) by (intro K; apply H; right; exact K).
    specialize (IH H').
    destruct (split sep (head ++ sep :: rest)) as [|piece pieces]; cbn in *.
    + rewrite <- IH. reflexivity.
    + rewrite IH. reflexivity.
Qed.

Lemma splitHead_without_sep (sep : char) (s : jsstring) :
  ~ In sep s -> splitHead sep s = s.
Proof.
  unfold splitHead. induction s as [|c s IH]; intro H; cbn [split];
    [reflexivity|].
  destruct (N.eqb_spec c sep) as [E|E]; [exfalso; apply H; left; exact E|].
  assert (H' : ~ In sep s) by (intro K; apply H; right; exact K).
  specialize (IH H').
  destruct (split sep s) as [|piece pieces]; cbn in *.
  - rewrite <- IH. reflexivity.
  - rewrite IH. reflexivity.
Qed.

(** C8. The sanitised title holds only characters of [[A-Za-z0-9_]]: each
    of the first 50 code units of the title is kept when it is an ASCII
    letter or digit and replaced by [_] otherwise.  The file name is
    [MedChat_], the sanitised title, [_], the date and [.pdf], where the
    date is what stands before the first [T] of the ISO timestamp (all of
    it when it has no [T]): for the timestamp [2026-11-02T09:30:00.000Z]
    the title ["My / Chat: Notes?"] gives
    [MedChat_My___Chat__Notes__2026-11-02.pdf]. *)
Theorem filename_sanitized :
  forall (env : Env) (conversationTitle : jsstring),
    let s := sanitizedTitle conversationTitle in
    forallb isWordChar s = true
    /\ length s = Nat.min 50 (length conversationTitle)
    /\ (forall i, (i < length s)%nat ->
          nth i s 0%N =
          if isAlnum (nth i conversationTitle 0%N)
          then nth i conversationTitle 0%N else UNDERSCORE)
    /\ filename env conversationTitle =
         js "MedChat_" ++ s ++ js "_"
         ++ splitHead UPPER_T (nowISOString env) ++ js ".pdf"
    /\ Forall (fun c => c <> UPPER_T) (splitHead UPPER_T (nowISOString env))
    /\ (forall date time : jsstring,
          nowISOString env = date ++ UPPER_T :: time ->
          ~ In UPPER_T date ->
          filename env conversationTitle
          = js "MedChat_" ++ s ++ js "_" ++ date ++ js ".pdf")
    /\ (~ In UPPER_T (nowISOString env) ->
        filename env conversationTitle
        = js "MedChat_" ++ s ++ js "_" ++ nowISOString env ++ js ".pdf")
    /\ sanitizedTitle (js "My / Chat: Notes?") = js "My___Chat__Notes_"
    /\ filename A4.env (js "My / Chat: Notes?")
       = js "MedChat_My___Chat__Notes__2026-11-02.pdf".
Proof.
  intros env t. cbv zeta.
  assert (S : sanitizedTitle t = firstn 50 (replaceNonAlnum t)) by reflexivity.
  split; [|split; [|split; [|split; [|split; [|split; [|split; [|split]]]]]]].
  - rewrite S. unfold replaceNonAlnum.
    apply forallb_forall. intros c Hc.
    apply (In_nth _ _ 0%N) in Hc. destruct Hc as (i & Hi & <-).
    rewrite length_firstn, length_map in Hi.
    rewrite nth_firstn.
    replace (i <? 50)%nat with true
      by (symmetry; apply Nat.ltb_lt;
          eapply Nat.lt_le_trans; [exact Hi | apply Nat.le_min_l]).
    rewrite (nth_map_within _ _ 0%N 0%N)
      by (eapply Nat.lt_le_trans; [exact Hi | apply Nat.le_min_r]).
    destruct (isAlnum (nth i t 0%N)) eqn:E.
    + apply isAlnum_isWordChar; assumption.
    + reflexivity.
  - rewrite S. unfold replaceNonAlnum.
    rewrite length_firstn, length_map. reflexivity.
  - rewrite S. unfold replaceNonAlnum.
    intros i Hi. rewrite length_firstn, length_map in Hi.
    rewrite nth_firstn.
    replace (i <? 50)%nat with true
      by (symmetry; apply Nat.ltb_lt;
          eapply Nat.lt_le_trans; [exact Hi | apply Nat.le_min_l]).
    rewrite (nth_map_within _ _ 0%N 0%N)
      by (eapply Nat.lt_le_trans; [exact Hi | apply Nat.le_min_r]). reflexivity.
  - reflexivity.
  - apply split_head_no_sep.
  - intros date time E Hd. unfold filename.
    rewrite E, (splitHead_before_sep UPPER_T date time Hd). reflexivity.
  - intro Hn. unfold filename.
    rewrite (splitHead_without_sep UPPER_T _ Hn). reflexivity.
  - reflexivity.
  - vm_compute. reflexivity.
Qed.

(** ** The tokenizer *)

Lemma unparse_app (p q : list Part) : unparse (p ++ q) = unparse p ++ unparse q.
Proof. unfold unparse. apply flat_map_app. Qed.

Lemma unparse_plain (s : jsstring) : unparse [plainPart s] = s.
Proof. cbn. apply app_nil_r. Qed.

Lemma unparse_bold (s : jsstring) : unparse [boldPart s] = marker ++ s ++ marker.
Proof. cbn. rewrite app_nil_r. reflexivity. Qed.

Lemma stars_inv (a b : N) :
  ((a =? STAR)%N && (b =? STAR)%N) = true -> a = STAR /\ b = STAR.
Proof.
  intro H. apply andb_prop in H. destruct H as [Ha Hb].
  apply N.eqb_eq in Ha, Hb. auto.
Qed.

Module BoldRegexFacts.
Import BoldRegex.

Lemma lazyUntilClose_sound (s c : jsstring) :
  lazyUntilClose s = Some c -> exists rest, s = c ++ marker ++ rest.
Proof.
  revert c. induction s as [|a tl IH]; intros c H; [discriminate|].
  destruct tl as [|b r]; [discriminate|].
  change (lazyUntilClose (a :: b :: r)) with
    (if (a =? STAR)%N && (b =? STAR)%N then Some []
     else if isLineTerminator a then None
     else option_map (cons a) (lazyUntilClose (b :: r))) in H.
  destruct ((a =? STAR)%N && (b =? STAR)%N) eqn:E.
  - injection H as <-. apply stars_inv in E. destruct E as [-> ->].
    exists r. reflexivity.
  - destruct (isLineTerminator a); [discriminate|].
    destruct (lazyUntilClose (b :: r)) as [c'|]; [|discriminate].
    injection H as <-. destruct (IH c' eq_refl) as [rest Hr].
    exists rest. rewrite Hr. reflexivity.
Qed.

(** The capture holds neither a marker nor a line terminator. *)
Lemma lazyUntilClose_clean (s c : jsstring) :
  lazyUntilClose s = Some c ->
  hasMarker c = false /\ existsb isLineTerminator c = false.
Proof.
  revert c. induction s as [|a tl IH]; intros c H; [discriminate|].
  destruct tl as [|b r]; [discriminate|].
  change (lazyUntilClose (a :: b :: r)) with
    (if (a =? STAR)%N && (b =? STAR)%N then Some []
     else if isLineTerminator a then None
     else option_map (cons a) (lazyUntilClose (b :: r))) in H.
  destruct ((a =? STAR)%N && (b =? STAR)%N) eqn:E.
  - injection H as <-. split; reflexivity.
  - destruct (isLineTerminator a) eqn:T; [discriminate|].
    destruct (lazyUntilClose (b :: r)) as [c'|] eqn:L; [|discriminate].
    injection H as <-. destruct (IH c' eq_refl) as [M1 M2].
    split; [|cbn [existsb]; rewrite T, M2; reflexivity].
    destruct c' as [|x c'']; [reflexivity|].
    destruct (lazyUntilClose_sound _ _ L) as [rest Hr].
    injection Hr as -> _.
    change (hasMarker (a :: x :: c'')) with
      (((a =? STAR)%N && (x =? STAR)%N) || hasMarker (x :: c'')).
    rewrite E, M1. reflexivity.
Qed.

Lemma search_unfold (a b : N) (rest : jsstring) :
  search (a :: b :: rest) =
  let next := option_map (fun m => (S (fst m), snd m)) (search (b :: rest)) in
  if (a =? STAR)%N && (b =? STAR)%N then
    match lazyUntilClose rest with
    | Some c => Some (O, c)
    | None => next
    end
  else next.
Proof. reflexivity. Qed.

Lemma search_sound (s : jsstring) (off : nat) (c : jsstring) :
  search s = Some (off, c) ->
  exists pre rest, s = pre ++ marker ++ c ++ marker ++ rest /\ length pre = off.
Proof.
  revert off c. induction s as [|a tl IH]; intros off c H; [discriminate|].
  destruct tl as [|b r]; [discriminate|].
  rewrite search_unfold in H. cbv zeta in H.
  assert (N : option_map (fun m => (S (fst m), snd m)) (search (b :: r))
              = Some (off, c) ->
              exists pre rest,
                a :: b :: r = pre ++ marker ++ c ++ marker ++ rest
                /\ length pre = off).
  { intro Hn. destruct (search (b :: r)) as [[o c']|]; [|discriminate].
    injection Hn as <- <-. destruct (IH o c' eq_refl) as (pre & rest & Hs & Hl).
    exists (a :: pre), rest. rewrite Hs. cbn. auto. }
  destruct ((a =? STAR)%N && (b =? STAR)%N) eqn:E; [|auto].
  destruct (lazyUntilClose r) as [c'|] eqn:L; [|auto].
  injection H as <- <-. apply stars_inv in E. destruct E as [-> ->].
  apply lazyUntilClose_sound in L. destruct L as [rest ->].
  exists [], rest. auto.
Qed.

Lemma search_clean (s : jsstring) (off : nat) (c : jsstring) :
  search s = Some (off, c) ->
  hasMarker c = false /\ existsb isLineTerminator c = false.
Proof.
  revert off. induction s as [|a tl IH]; intros off H; [discriminate|].
  destruct tl as [|b r]; [discriminate|].
  rewrite search_unfold in H. cbv zeta in H.
  assert (N : option_map (fun m => (S (fst m), snd m)) (search (b :: r))
              = Some (off, c) ->
              hasMarker c = false /\ existsb isLineTerminator c = false).
  { intro Hn. destruct (search (b :: r)) as [[o c']|]; [|discriminate].
    injection Hn as <- <-. exact (IH o eq_refl). }
  destruct ((a =? STAR)%N && (b =? STAR)%N); [|auto].
  destruct (lazyUntilClose r) as [c'|] eqn:L; [|auto].
  injection H as <- <-. exact (lazyUntilClose_clean _ _ L).
Qed.

Lemma exec_clean (line : jsstring) (lastIndex : nat) (m : Match) :
  exec line lastIndex = Some m ->
  hasMarker (capture m) = false
  /\ existsb isLineTerminator (capture m) = false.
Proof.
  unfold exec. intro H.
  destruct (search (skipn lastIndex line)) as [[off c]|] eqn:S; [|discriminate].
  injection H as <-. cbn. exact (search_clean _ _ _ S).
Qed.


Lemma exec_sound (line : jsstring) (lastIndex : nat) (m : Match) :
  exec line lastIndex = Some m ->
  exists pre rest,
    skipn lastIndex line = pre ++ marker ++ capture m ++ marker ++ rest
    /\ index m = (lastIndex + length pre)%nat
    /\ matchLength m = (4 + length (capture m))%nat.
Proof.
  unfold exec. intro H.
  destruct (search (skipn lastIndex line)) as [[off c]|] eqn:S; [|discriminate].
  injection H as <-. cbn.
  destruct (search_sound _ _ _ S) as (pre & rest & Hs & Hl).
  exists pre, rest. rewrite Hl. repeat split; [assumption|lia].
Qed.

End BoldRegexFacts.

Section TokenizerFacts.
Import BoldRegex BoldRegexFacts.

Lemma substring_forward (s : jsstring) (i n : nat) :
  substring s i (i + n) = firstn n (skipn i s).
Proof.
  unfold substring.
  rewrite Nat.max_r, Nat.min_l by lia.
  replace (i + n - i)%nat with n by lia. reflexivity.
Qed.

Lemma firstn_past (s t : jsstring) (n : nat) :
  firstn (length s + n) (s ++ t) = s ++ firstn n t.
Proof.
  rewrite firstn_app, firstn_all2 by lia.
  replace (length s + n - length s)%nat with n by lia. reflexivity.
Qed.

Lemma firstn_covers (line s t rest : jsstring) :
  line = s ++ t ++ rest -> firstn (length s + length t) line = s ++ t.
Proof.
  intros ->. rewrite firstn_past, <- (Nat.add_0_r (length t)), firstn_past.
  cbn. rewrite app_nil_r. reflexivity.
Qed.

(** One iteration of the loop extends the text accounted for. *)
Lemma tokenizeLoop_unparse (fuel : nat) (line : jsstring) :
  forall (lastIndex : nat) (parts : list Part),
    (lastIndex <= length line)%nat ->
    unparse parts = firstn lastIndex line ->
    let r := tokenizeLoop fuel line lastIndex parts in
    unparse (fst r) = firstn (snd r) line
    /\ (snd r <= length line)%nat
    /\ ((length line - lastIndex < fuel)%nat -> exec line (snd r) = None).
Proof.
  induction fuel as [|fuel IH]; intros li parts Hli Hp; cbn.
  - repeat split; auto. lia.
  - destruct (exec line li) as [m|] eqn:E; cbn.
    2:{ repeat split; auto. }
    destruct (exec_sound _ _ _ E) as (pre & rest & Hs & Hi & Hm).
    assert (Hline : line = firstn li line ++ pre ++ marker ++ capture m
                           ++ marker ++ rest).
    { rewrite <- Hs. symmetry. apply firstn_skipn. }
    assert (Hlen : length (firstn li line) = li)
      by (rewrite length_firstn; lia).
    assert (Hsub : substring line li (index m) = pre).
    { rewrite Hi, substring_forward, Hs, <- (Nat.add_0_r (length pre)).
      rewrite firstn_past. cbn. apply app_nil_r. }
    assert (Hnew : (index m + matchLength m <= length line)%nat).
    { pose proof (f_equal (@length N) Hline) as HL.
      rewrite !length_app, Hlen in HL. cbn in HL. lia. }
    specialize (IH (index m + matchLength m)%nat
      ((if (li <? index m)%nat
        then parts ++ [plainPart (substring line li (index m))]
        else parts) ++ [boldPart (capture m)]) Hnew).
    cbv zeta in IH.
    destruct IH as (I1 & I2 & I3).
    + rewrite unparse_app, unparse_bold.
      assert (Hpre : unparse (if (li <? index m)%nat
                              then parts ++ [plainPart (substring line li (index m))]
                              else parts) = firstn li line ++ pre).
      { destruct (li <? index m)%nat eqn:L.
        - rewrite unparse_app, unparse_plain, Hsub, Hp. reflexivity.
        - apply Nat.ltb_ge in L.
          assert (length pre = 0)%nat by lia.
          destruct pre; [|discriminate]. rewrite app_nil_r. exact Hp. }
      rewrite Hpre, <- app_assoc.
      replace (index m + matchLength m)%nat
        with (length (firstn li line)
              + length (pre ++ marker ++ capture m ++ marker))%nat
        by (rewrite !length_app, Hlen, Hi, Hm; cbn; lia).
      symmetry. apply firstn_covers with (rest := rest).
      rewrite <- !app_assoc. exact Hline.
    + repeat split; auto. intro Hf. apply I3. lia.
Qed.

(** The loop of [tokenize] is given enough iterations: it ends because
    [exec] finds no further match. *)
Lemma tokenizeLoop_runs_to_completion (line : jsstring) :
  exec line (snd (tokenizeLoop (S (length line)) line 0 [])) = None.
Proof.
  apply (tokenizeLoop_unparse (S (length line)) line 0 []); [lia|reflexivity|lia].
Qed.

(** Putting the markers back around the bold runs gives the line back. *)
Lemma tokenize_unparse (line : jsstring) : unparse (tokenize line) = line.
Proof.
  unfold tokenize.
  pose proof (tokenizeLoop_unparse (S (length line)) line 0 []
                (Nat.le_0_l _) eq_refl) as H. cbv zeta in H.
  destruct (tokenizeLoop (S (length line)) line 0 []) as [parts li].
  cbn [fst snd] in H. destruct H as (H1 & H2 & _).
  assert (H : unparse (if (li <? length line)%nat
                       then parts ++ [plainPart (substringFrom line li)]
                       else parts) = line).
  { destruct (li <? length line)%nat eqn:L.
    - rewrite unparse_app, unparse_plain, H1. apply firstn_skipn.
    - apply Nat.ltb_ge in L. rewrite H1. apply firstn_all2. assumption. }
  destruct (if (li <? length line)%nat
            then parts ++ [plainPart (substringFrom line li)]
            else parts) as [|p ps]; cbn [length Nat.eqb app].
  - cbn in H. subst line. reflexivity.
  - exact H.
Qed.

(** When the regular expression does not match, the line is one plain run. *)
Lemma tokenize_no_match (line : jsstring) :
  exec line 0 = None -> tokenize line = [plainPart line].
Proof.
  intro E. unfold tokenize. cbn [tokenizeLoop]. rewrite E.
  destruct line as [|a l]; reflexivity.
Qed.

(** A bold run is a capture of the regular expression. *)
Lemma tokenizeLoop_bold_clean (fuel : nat) (line : jsstring) :
  forall (lastIndex : nat) (parts : list Part),
    Forall CleanBold parts ->
    Forall CleanBold (fst (tokenizeLoop fuel line lastIndex parts)).
Proof.
  induction fuel as [|fuel IH]; intros li parts H; cbn [tokenizeLoop];
    [exact H|].
  destruct (exec line li) as [m|] eqn:E; [|exact H]. cbv zeta.
  apply IH. apply Forall_app. split.
  - destruct (li <? index m)%nat; [|exact H].
    apply Forall_app. split; [exact H|].
    constructor; [discriminate|constructor].
  - constructor; [|constructor]. intros _. exact (exec_clean _ _ _ E).
Qed.

Lemma tokenize_bold_clean (line : jsstring) : Forall CleanBold (tokenize line).
Proof.
  unfold tokenize.
  pose proof (tokenizeLoop_bold_clean (S (length line)) line 0 []
                (Forall_nil _)) as H.
  destruct (tokenizeLoop (S (length line)) line 0 []) as [parts li].
  cbn [fst] in H.
  assert (H' : Forall CleanBold
                 (if (li <? length line)%nat
                  then parts ++ [plainPart (substringFrom line li)]
                  else parts)).
  { destruct (li <? length line)%nat; [|exact H].
    apply Forall_app. split; [exact H|].
    constructor; [discriminate|constructor]. }
  destruct (length _ =? 0)%nat; [|exact H'].
  apply Forall_app. split; [exact H'|].
  constructor; [discriminate|constructor].
Qed.

(** The tokenizer always returns at least one run. *)
Lemma tokenize_nonempty (line : jsstring) : tokenize line <> [].
Proof.
  unfold tokenize. destruct (tokenizeLoop _ _ _ _) as [parts li].
  destruct (if (li <? length line)%nat
            then parts ++ [plainPart (substringFrom line li)] else parts);
    cbn; discriminate.
Qed.

End TokenizerFacts.

(** A closed pair followed by an unpaired marker. *)
Example tokenize_demo :
  tokenize (js "**x** and **y") = [boldPart (js "x"); plainPart (js " and **y")].
Proof. reflexivity. Qed.


(** C10. Markers are removed only around a complete pair: writing [**]
    back around each bold run of the tokenizer's output gives the line
    itself, so every other [*] of the line is in a run, as it is; a bold
    run has no marker inside; and a line that has a marker which the
    regular expression cannot pair is a single plain run holding the whole
    line, markers included. *)
Theorem tokenize_unpaired_markers_literal :
  (forall line : jsstring, unparse (tokenize line) = line)
  /\ (forall line : jsstring, Forall CleanBold (tokenize line))
  /\ (forall line : jsstring,
        hasMarker line = true ->
        BoldRegex.exec line 0 = None ->
        tokenize line = [plainPart line])
  /\ tokenize (js "a ** b") = [plainPart (js "a ** b")]
  /\ tokenize (js "**a** b **c")
     = [boldPart (js "a"); plainPart (js " b **c")].
Proof.
  split; [exact tokenize_unparse|].
  split; [exact tokenize_bold_clean|].
  split; [intros line _; apply tokenize_no_match|].
  split; reflexivity.
Qed.

(** ** Reasoning about the drawing code *)

Lemma run_bind {A B} (m : M A) (k : A -> M B) (st : State) :
  run (bind m k) st = run (k (fst (m st))) (run m st).
Proof. unfold run, bind. destruct (m st). reflexivity. Qed.

Lemma run_ret {A} (a : A) (st : State) : run (ret a) st = st.
Proof. reflexivity. Qed.

Lemma run_forEach_cons {A} (a : A) (l : list A) (body : A -> M unit) (st : State) :
  run (forEach (a :: l) body) st = run (forEach l body) (run (body a) st).
Proof. cbn [forEach]. apply run_bind. Qed.

Lemma run_forEach_app {A} (l1 l2 : list A) (body : A -> M unit) (st : State) :
  run (forEach (l1 ++ l2) body) st
  = run (forEach l2 body) (run (forEach l1 body) st).
Proof.
  revert st. induction l1 as [|a l1 IH]; intro st; [reflexivity|].
  cbn [app]. rewrite !run_forEach_cons. apply IH.
Qed.

Lemma hoare_bind {A B} (P : State -> Prop) (m : M A) (R : A -> State -> Prop)
    (k : A -> M B) (Q : B -> State -> Prop) :
  hoare P m R -> (forall a, hoare (R a) (k a) Q) -> hoare P (bind m k) Q.
Proof.
  intros Hm Hk st HP. unfold bind. specialize (Hm st HP).
  destruct (m st) as [a st']. exact (Hk a st' Hm).
Qed.

Lemma hoare_consequence {A} (P P' : State -> Prop) (m : M A)
    (Q Q' : A -> State -> Prop) :
  hoare P' m Q' ->
  (forall st, P st -> P' st) ->
  (forall a st, Q' a st -> Q a st) ->
  hoare P m Q.
Proof. intros H HP HQ st Hst. apply HQ, H, HP, Hst. Qed.

Lemma hoare_forEach {A} (I : State -> Prop) (l : list A) (body : A -> M unit) :
  (forall a, hoare I (body a) (fun _ => I)) ->
  hoare I (forEach l body) (fun _ => I).
Proof.
  intro Hb. induction l as [|a l IH]; cbn [forEach].
  - intros st H. exact H.
  - eapply hoare_bind; [apply Hb|]. intros ?; cbv beta. exact IH.
Qed.

Lemma hoare_forEachIndexed {A} (I : State -> Prop) (l : list A)
    (body : nat -> A -> M unit) :
  (forall i a, hoare I (body i a) (fun _ => I)) ->
  forall idx, hoare I (forEachIndexed idx l body) (fun _ => I).
Proof.
  intro Hb. induction l as [|a l IH]; intro idx; cbn [forEachIndexed].
  - intros st H. exact H.
  - eapply hoare_bind; [apply Hb|]. intros ?; cbv beta. apply IH.
Qed.

Lemma hoare_foldM {A S} (I : S -> State -> Prop) (l : list A)
    (body : S -> A -> M S) :
  (forall s a, hoare (I s) (body s a) I) ->
  forall s, hoare (I s) (foldM l s body) I.
Proof.
  intro Hb. induction l as [|a l IH]; intro s; cbn [foldM].
  - intros st H. exact H.
  - eapply hoare_bind; [apply Hb|]. intro s'. apply IH.
Qed.

(** ** The text that reaches the page *)

Section TextFacts.

Variable env : Env.

Lemma texts_checkNewPage (l : list jsstring) (h : Q) :
  hoare (TextsAre l) (checkNewPage env h) (fun _ => TextsAre l).
Proof.
  intros st H. unfold checkNewPage, bind, getY.
  destruct (Qgtb _ _); exact H.
Qed.

Lemma texts_advance (l : list jsstring) (h : Q) :
  hoare (TextsAre l) (advance h) (fun _ => TextsAre l).
Proof. intros st H. exact H. Qed.

Lemma texts_drawLineParts (l : list jsstring) (ps : list Part) :
  hoare (TextsAre l) (drawLineParts env ps)
        (fun _ => TextsAre (l ++ map text ps)).
Proof.
  unfold drawLineParts.
  eapply hoare_bind; [apply texts_checkNewPage|]. intros ?; cbv beta.
  eapply hoare_bind; [|intros ?; cbv beta; apply texts_advance].
  generalize (margin + 3). revert l.
  induction ps as [|p ps IH]; intros l x; cbn [foldM map].
  - rewrite app_nil_r. intros st H. exact H.
  - eapply hoare_bind with (R := fun _ => TextsAre (l ++ [text p])).
    + intros st H. unfold TextsAre, drawnTexts in *. cbn.
      rewrite flat_map_app, H. reflexivity.
    + intro x'. replace (l ++ text p :: map text ps)
        with ((l ++ [text p]) ++ map text ps)
        by (rewrite <- app_assoc; reflexivity).
      apply IH.
Qed.

Lemma texts_drawLineIfAny (l : list jsstring) (ps : list Part) :
  hoare (TextsAre l) (drawLineIfAny env ps)
        (fun _ => TextsAre (l ++ map text ps)).
Proof.
  unfold drawLineIfAny. destruct ps as [|p ps].
  - cbn. rewrite app_nil_r. intros st H. exact H.
  - apply texts_drawLineParts.
Qed.

Lemma texts_setFont (l : list jsstring) (style : FontStyle) :
  hoare (TextsAre l) (Pdf.setFont style) (fun _ => TextsAre l).
Proof. intros st H. exact H. Qed.

Lemma texts_getTextWidth (l : list jsstring) (s : jsstring) :
  hoare (TextsAre l) (Pdf.getTextWidth env s) (fun _ => TextsAre l).
Proof. intros st H. exact H. Qed.

Lemma texts_wrapStep (l : list jsstring) (cur : list N * list Part) (p : Part) :
  hoare (TextsAre l) (wrapStep env cur p)
        (fun cur' st => drawnTexts st ++ map text (snd cur')
                        = l ++ map text (snd cur) ++ [text p]).
Proof.
  unfold wrapStep.
  eapply hoare_bind; [apply texts_setFont|]. intros ?; cbv beta.
  eapply hoare_bind; [apply texts_getTextWidth|]. intro w; cbv beta.
  destruct (Qgtb w (maxWidth env - 6)).
  - eapply hoare_bind; [apply texts_drawLineIfAny|]. intros ?; cbv beta.
    intros st H. cbn. rewrite H, <- app_assoc. reflexivity.
  - intros st H. cbn. rewrite H, map_app. reflexivity.
Qed.

Lemma texts_wrapLoop (parts : list Part) :
  forall (cur : list N * list Part) (l : list jsstring),
    hoare (fun st => drawnTexts st ++ map text (snd cur) = l)
          (foldM parts cur (wrapStep env))
          (fun cur' st => drawnTexts st ++ map text (snd cur')
                          = l ++ map text parts).
Proof.
  induction parts as [|p parts IH]; intros cur l; cbn [foldM map].
  - intros st H. cbn. rewrite app_nil_r. exact H.
  - intros st H.
    apply (hoare_bind (TextsAre (drawnTexts st)) (wrapStep env cur p)
             (fun cur' st' => drawnTexts st' ++ map text (snd cur')
                              = l ++ [text p])); [| |reflexivity].
    + eapply hoare_consequence;
        [apply (texts_wrapStep (drawnTexts st))|intros ? HP; exact HP|].
      cbv beta. intros cur' st' H'. rewrite H', app_assoc, H. reflexivity.
    + intro cur'. eapply hoare_consequence;
        [apply (IH cur' (l ++ [text p]))|intros ? HP; exact HP|].
      cbv beta. intros cur'' st' H'. rewrite H', <- app_assoc. reflexivity.
Qed.

(** Every run is drawn once, as one string, in the order of the runs. *)
Lemma texts_renderParts (l : list jsstring) (parts : list Part) :
  hoare (TextsAre l) (renderParts env parts)
        (fun _ => TextsAre (l ++ map text parts)).
Proof.
  unfold renderParts.
  eapply hoare_bind with
    (R := fun cur st => drawnTexts st ++ map text (snd cur)
                        = l ++ map text parts).
  - eapply hoare_consequence;
      [apply (texts_wrapLoop parts ([], []) l)| |intros ? ? HQ; exact HQ].
    intros st H. cbn. rewrite app_nil_r. exact H.
  - intros cur st H.
    pose proof (texts_drawLineIfAny (drawnTexts st) (snd cur) st eq_refl) as HD.
    unfold TextsAre in *. rewrite HD. exact H.
Qed.

(** A blank line draws nothing; any other line draws its runs. *)
Lemma texts_renderLine (l : list jsstring) (line : jsstring) :
  hoare (TextsAre l) (renderLine env line)
        (fun _ => TextsAre (if truthy (trim line)
                            then l ++ map text (tokenize line) else l)).
Proof.
  unfold renderLine. destruct (truthy (trim line)); cbn [negb].
  - apply texts_renderParts.
  - eapply hoare_bind; [apply texts_checkNewPage|]. intros ?; cbv beta.
    apply texts_advance.
Qed.

End TextFacts.

(** ** The line-wrap law *)




(** ** Message timestamps *)

Lemma texts_renderSender (env : Env) (l : list jsstring) (userName : jsstring)
    (m : Message) :
  hoare (TextsAre l) (renderSender env userName m)
        (fun _ => TextsAre (l ++ [senderLabel userName m])).
Proof.
  unfold renderSender.
  eapply hoare_bind; [apply texts_checkNewPage|]. intros ?; cbv beta.
  intros st H. unfold TextsAre, drawnTexts, senderLabel in *.
  destruct (role m); cbn; rewrite !flat_map_app, H; cbn;
    rewrite app_nil_r; reflexivity.
Qed.

(** C7, as stated, fails: for a message without [createdAt] the texts drawn
    by the whole export are the header lines, the sender label, the body
    and the footer; the message block holds no time string. *)
Lemma absent_timestamp_counterexample :
  createdAt A4.hello = None
  /\ drawnTexts (run (renderMessage A4.env (js "User") A4.hello) initialState)
     = [js "User"; js "hi"]
  /\ drawnTexts (render A4.env (A4.request [A4.hello]))
     = [js "MedChat - Medical Consultation"; js "T";
        js "Exported: 11/2/2026"; js "User"; js "hi";
        js "Page 1/1 | MedChat Medical AI | 11/2/2026"].
Proof.
  split; [reflexivity|]. split; vm_compute; reflexivity.
Qed.

(** A message that carries a timestamp has it formatted and drawn in the
    band, its right edge 3 inside the right margin. *)
Lemma present_timestamp_is_drawn (env : Env) (m : Message) (stamp : jsstring)
    (st : State) :
  createdAt m = Some stamp -> truthy stamp = true ->
  items (doc (run (renderTimestamp env m) st))
  = items (doc st)
    ++ [(currentPage (doc st),
         Text (dateToLocaleString env stamp)
              (pageWidth env - margin
               - textWidth env Normal 8 (dateToLocaleString env stamp) - 3)
              (yPosition st + 5.5) Normal 8 (120, 120, 120)%N)].
Proof.
  intros H T. unfold renderTimestamp, formatDate. rewrite H, T. reflexivity.
Qed.

(** C7, amended. For a message whose [createdAt] is absent or empty the
    timestamp block does nothing, so the message header draws the sender
    label only; a message with a non-empty [createdAt] has that timestamp
    formatted and drawn.  [formatDate] returns the export date when it is
    given no date, which is how the document header and the footers call
    it. *)
Theorem absent_timestamp_draws_nothing :
  forall (env : Env) (userName : jsstring) (m : Message) (st : State),
    (createdAt m = None \/ createdAt m = Some [] ->
     run (renderTimestamp env m) st = st
     /\ drawnTexts (run (renderSender env userName m ;; renderTimestamp env m) st)
        = drawnTexts st ++ [senderLabel userName m])
    /\ (forall stamp : jsstring,
          createdAt m = Some stamp -> truthy stamp = true ->
          drawnTexts (run (renderTimestamp env m) st)
          = drawnTexts st ++ [dateToLocaleString env stamp])
    /\ formatDate env None = nowLocaleDateString env
    /\ formatDate env (Some []) = nowLocaleDateString env.
Proof.
  intros env userName m st. split; [|split; [|split; reflexivity]].
  - intro H.
    assert (T : renderTimestamp env m = ret tt).
    { unfold renderTimestamp. destruct H as [-> | ->]; reflexivity. }
    split; [rewrite T; reflexivity|].
    rewrite run_bind, T, run_ret.
    exact (texts_renderSender env (drawnTexts st) userName m st eq_refl).
  - intros stamp H T. unfold drawnTexts.
    rewrite (present_timestamp_is_drawn env m stamp st H T), flat_map_app.
    reflexivity.
Qed.

Lemma absent_timestamp_draws_nothing_witness :
  run (renderTimestamp A4.env A4.hello) initialState = initialState
  /\ drawnTexts (run (renderSender A4.env (js "User") A4.hello ;;
                      renderTimestamp A4.env A4.hello) initialState)
     = drawnTexts initialState ++ [senderLabel (js "User") A4.hello].
Proof.
  apply (absent_timestamp_draws_nothing A4.env (js "User") A4.hello initialState).
  left. reflexivity.
Defined.

(** ** Citations *)

Lemma renderMessage_ignores_citations (env : Env) (userName : jsstring)
    (m1 m2 : Message) :
  sameButCitations m1 m2 ->
  renderMessage env userName m1 = renderMessage env userName m2.
Proof.
  destruct m1, m2. unfold sameButCitations, withoutCitations. cbn.
  intro H. injection H as -> -> -> -> ->. reflexivity.
Qed.

Lemma forEach_ignores_citations (env : Env) (userName : jsstring)
    (ms1 ms2 : list Message) :
  Forall2 sameButCitations ms1 ms2 ->
  forEach ms1 (renderMessage env userName)
  = forEach ms2 (renderMessage env userName).
Proof.
  induction 1 as [|m1 m2 ms1 ms2 Hm _ IH]; cbn [forEach]; [reflexivity|].
  rewrite (renderMessage_ignores_citations env userName m1 m2 Hm), IH.
  reflexivity.
Qed.

(** C9. Two export requests with the same title and user name, whose
    messages agree one by one on every field but [citations], have the same
    effects: the same document is saved under the same name. *)
Theorem export_independent_of_citations :
  forall (env : Env) (p1 p2 : ExportConversationPDFProps),
    conversationTitle p1 = conversationTitle p2 ->
    userName p1 = userName p2 ->
    Forall2 sameButCitations (messages p1) (messages p2) ->
    exportToPDF env p1 = exportToPDF env p2.
Proof.
  intros env p1 p2 Ht Hu Hm.
  unfold exportToPDF, render, layout, userNameOrDefault.
  rewrite (Forall2_length Hm), Ht, Hu.
  rewrite (forEach_ignores_citations env _ _ _ Hm). reflexivity.
Qed.

Lemma export_independent_of_citations_witness :
  exportToPDF A4.env (A4.request [A4.hello])
  = exportToPDF A4.env
      (A4.request
         [{| id := js "m1"; role := user; content := js "hi";
             citations := Some [js "https://example.org/a"];
             searchResults := None; createdAt := None |}]).
Proof.
  apply export_independent_of_citations; try reflexivity.
  constructor; [reflexivity|constructor].
Defined.

(** ** Greedy packing of runs into visual lines *)

Section PackingFacts.

Variable env : Env.

Lemma renderParts_renderFrom (parts : list Part) :
  renderParts env parts = renderFrom env parts ([], []).
Proof. reflexivity. Qed.

Lemma wrapStep_eq (cur : list N * list Part) (part : Part) (st : State) :
  wrapStep env cur part st =
  let st1 := run (Pdf.setFont Normal) st in
  if Qgtb (textWidth env Normal (fontSize (doc st)) (fst cur ++ text part))
          (maxWidth env - 6)
  then ((text part, [part]), run (drawLineIfAny env (snd cur)) st1)
  else ((fst cur ++ text part, snd cur ++ [part]), st1).
Proof.
  unfold wrapStep, bind, run. cbn.
  destruct (Qgtb _ _); [|reflexivity].
  destruct (drawLineIfAny env (snd cur) _) as [[] st']. reflexivity.
Qed.

Lemma renderFrom_nil (cur : list N * list Part) (st : State) :
  run (renderFrom env [] cur) st = run (drawLineIfAny env (snd cur)) st.
Proof. reflexivity. Qed.

Lemma renderFrom_cons (part : Part) (rest : list Part)
    (cur : list N * list Part) (st : State) :
  run (renderFrom env (part :: rest) cur) st
  = run (renderFrom env rest (fst (wrapStep env cur part st)))
        (snd (wrapStep env cur part st)).
Proof.
  unfold renderFrom, run, bind. cbn [foldM]. unfold bind.
  destruct (wrapStep env cur part st). reflexivity.
Qed.

(** Drawing a visual line that has a run sets the font before it draws, so
    the font it starts from does not matter. *)
Lemma drawLineParts_any_font (style : FontStyle) (p : Part) (ps : list Part)
    (st : State) :
  run (drawLineParts env (p :: ps)) (run (Pdf.setFont style) st)
  = run (drawLineParts env (p :: ps)) st.
Proof.
  unfold run, drawLineParts, bind, checkNewPage, getY. cbn.
  destruct (Qgtb _ _); reflexivity.
Qed.

Lemma forEach_lines_any_font (style : FontStyle) (p : Part) (ps : list Part)
    (ls : list (list Part)) (st : State) :
  run (forEach ((p :: ps) :: ls) (drawLineParts env)) (run (Pdf.setFont style) st)
  = run (forEach ((p :: ps) :: ls) (drawLineParts env)) st.
Proof. rewrite !run_forEach_cons, drawLineParts_any_font. reflexivity. Qed.

Lemma packRuns_head (width : jsstring -> Q) (limit : Q) (parts : list Part) :
  forall (curText : jsstring) (cur : list Part),
    cur <> [] ->
    exists p ps ls, packRuns width limit parts curText cur = (p :: ps) :: ls.
Proof.
  induction parts as [|part rest IH]; intros curText cur Hc; cbn [packRuns].
  - destruct cur as [|p ps]; [contradiction|]. exists p, ps, []. reflexivity.
  - destruct (Qgtb _ _).
    + destruct cur as [|p ps]; [contradiction|].
      exists p, ps, (packRuns width limit rest (text part) [part]). reflexivity.
    + apply IH. destruct cur; discriminate.
Qed.

Lemma size_drawLineIfAny (size : Q) (ps : list Part) :
  hoare (SizeIs size) (drawLineIfAny env ps) (fun _ => SizeIs size).
Proof.
  unfold drawLineIfAny.
  destruct (0 <? length ps)%nat; [|intros st H; exact H].
  unfold drawLineParts.
  eapply hoare_bind with (R := fun _ => SizeIs size).
  { intros st H. unfold checkNewPage, bind, getY. destruct (Qgtb _ _); exact H. }
  intros ?; cbv beta.
  eapply hoare_bind with (R := fun _ => SizeIs size).
  - apply (hoare_foldM (fun _ => SizeIs size)). intros x p st H. exact H.
  - intros ? st H. exact H.
Qed.

Lemma run_lineIfAny (cur : list Part) (st : State) :
  run (forEach (lineIfAny cur) (drawLineParts env)) st
  = run (drawLineIfAny env cur) st.
Proof.
  unfold lineIfAny, drawLineIfAny. destruct (0 <? length cur)%nat; [|reflexivity].
  rewrite run_forEach_cons. reflexivity.
Qed.

(** The loop draws the lines of [packRuns], where [testText] is measured
    in the normal font at the current size. *)
Lemma renderFrom_packRuns (size : Q) (parts : list Part) :
  forall (cur : list N * list Part) (st : State),
    SizeIs size st ->
    run (renderFrom env parts cur) st
    = run (forEach (packRuns (textWidth env Normal size) (maxWidth env - 6)
                      parts (fst cur) (snd cur))
                   (drawLineParts env)) st.
Proof.
  induction parts as [|part rest IH]; intros [curText cur] st Hsize;
    cbn [fst snd packRuns].
  - rewrite renderFrom_nil, run_lineIfAny. reflexivity.
  - rewrite renderFrom_cons, wrapStep_eq. cbv zeta. cbn [fst snd].
    rewrite Hsize.
    destruct (Qgtb _ _); cbn [fst snd].
    + rewrite run_forEach_app, run_lineIfAny.
      rewrite IH.
      2:{ apply (size_drawLineIfAny size cur). exact Hsize. }
      cbn [fst snd].
      destruct cur as [|p ps].
      * cbn.
        destruct (packRuns_head (textWidth env Normal size) (maxWidth env - 6)
                    rest (text part) [part]) as (q & qs & ls & E);
          [discriminate|].
        rewrite E. apply forEach_lines_any_font.
      * unfold drawLineIfAny. cbn [length Nat.ltb Nat.leb].
        rewrite drawLineParts_any_font. reflexivity.
    + rewrite IH by exact Hsize. cbn [fst snd].
      destruct (packRuns_head (textWidth env Normal size) (maxWidth env - 6)
                  rest (curText ++ text part) (cur ++ [part]))
        as (q & qs & ls & E); [destruct cur; discriminate|].
      rewrite E. apply forEach_lines_any_font.
Qed.

(** The packing never looks at the [bold] flag of a run. *)
Lemma packRuns_ignores_bold (width : jsstring -> Q) (limit : Q)
    (parts : list Part) :
  forall (curText : jsstring) (cur : list Part),
    map (map text) (packRuns width limit parts curText cur)
    = map (map text)
        (packRuns width limit (map (fun p => plainPart (text p)) parts)
           curText (map (fun p => plainPart (text p)) cur)).
Proof.
  assert (L : forall cur,
    map (map text) (lineIfAny cur)
    = map (map text) (lineIfAny (map (fun p => plainPart (text p)) cur))).
  { intro cur. unfold lineIfAny. rewrite length_map.
    destruct (0 <? length cur)%nat; [|reflexivity].
    cbn. rewrite map_map. reflexivity. }
  induction parts as [|part rest IH]; intros curText cur; cbn [packRuns map].
  - apply L.
  - cbn [text plainPart]. destruct (Qgtb _ _).
    + rewrite !map_app, L, (IH (text part) [part]). reflexivity.
    + rewrite IH, map_app. reflexivity.
Qed.

End PackingFacts.

(** C5, as stated, fails.  With the widths of Helvetica at size 10, ten
    plain letters [a] measure 19.61 and 75 bold letters [b] measure 161.66:
    under their own styles the two runs need 181.27, more than the 174.0016
    available, so packing by styled width puts them on two lines.  The
    source measures the 85 letters in the normal font, 166.72, keeps them
    on one line, and draws something else than the styled packing would. *)
Lemma styled_measure_counterexample :
  Qgtb (styledWidth A4.env 10 wideBoldParts) (maxWidth A4.env - 6) = true
  /\ Qgtb (textWidth A4.env Normal 10 (concat (map text wideBoldParts)))
          (maxWidth A4.env - 6) = false
  /\ packRunsStyled A4.env 10 (maxWidth A4.env - 6) wideBoldParts []
     = [[plainPart (repeat 97%N 10)]; [boldPart (repeat 98%N 75)]]
  /\ map (fun e => textBaseline (snd e))
         (items (doc (run (renderParts A4.env wideBoldParts) bodyState)))
     = [Some 15; Some 15]
  /\ run (renderParts A4.env wideBoldParts) bodyState
     <> run (forEach (packRunsStyled A4.env 10 (maxWidth A4.env - 6)
                        wideBoldParts [])
                     (drawLineParts A4.env)) bodyState.
Proof.
  split; [vm_compute; reflexivity|].
  split; [vm_compute; reflexivity|].
  split; [vm_compute; reflexivity|].
  split; [vm_compute; reflexivity|].
  intro H. apply (f_equal yPosition) in H. vm_compute in H. discriminate.
Qed.

(** C5, amended. The loop draws the visual lines of [packRuns] under the
    measurement "width of the concatenated text of the line so far and the
    next run, in the normal font at the current size": the overflow test
    never uses the bold metric, and the lines it forms do not depend on
    which runs are bold.  A run's own style is used only to draw it and to
    advance the horizontal position. *)
Theorem overflow_measured_in_normal_font :
  forall (env : Env) (parts : list Part) (st : State),
    run (renderParts env parts) st
    = run (forEach (packRuns (textWidth env Normal (fontSize (doc st)))
                      (maxWidth env - 6) parts [] [])
                   (drawLineParts env)) st
    /\ forall (width : jsstring -> Q) (limit : Q),
         map (map text) (packRuns width limit parts [] [])
         = map (map text)
             (packRuns width limit (map (fun p => plainPart (text p)) parts)
                [] []).
Proof.
  intros env parts st. split.
  - rewrite renderParts_renderFrom.
    apply (renderFrom_packRuns env (fontSize (doc st)) parts ([], []) st).
    reflexivity.
  - intros width limit. apply (packRuns_ignores_bold width limit parts [] []).
Qed.

(** ** The cursor and the bottom bound *)

Section CursorFacts.

Variable env : Env.

(** The page holds the header band and, below the top margin, the largest
    block that is ever checked for. *)
Hypothesis tall : 60 <= pageHeight env.

(** A property of drawn items that every item within the bound has. *)
Variable ok : Item -> Prop.
Hypothesis ok_within : forall it, itemBottom it <= usableBottom env -> ok it.

Lemma Fits_Safe (r : Q) (st : State) : Fits env ok r st -> Safe ok st.
Proof. intros [H _]. exact H. Qed.

Lemma Fits_less (r r' : Q) (st : State) :
  r' <= r -> Fits env ok r st -> Fits env ok r' st.
Proof. intros L [H B]. split; [exact H|]. lra. Qed.

Lemma safe_draw (it : Item) (st : State) :
  Safe ok st -> itemBottom it <= usableBottom env ->
  Safe ok (run (onDoc (Pdf.draw it)) st).
Proof.
  intros H B. unfold Safe in *. cbn. apply Forall_app. split; [exact H|].
  constructor; [|constructor]. apply ok_within. exact B.
Qed.

(** After the space check a block of the checked height fits, whether or
    not the page was broken. *)
Lemma check_fits (r : Q) :
  r <= 20 -> hoare (Safe ok) (checkNewPage env r) (fun _ => Fits env ok r).
Proof.
  intros Hr st H. unfold checkNewPage, bind, getY.
  destruct (Qgtb (yPosition st + r) (pageHeight env - margin - 10)) eqn:E; cbn.
  - split; [exact H|]. unfold usableBottom, margin in *. cbn. lra.
  - apply Qgtb_false_iff in E. split; [exact H|]. exact E.
Qed.

Lemma fits_advance (r h : Q) :
  hoare (Fits env ok r) (advance h) (fun _ => Fits env ok (r - h)).
Proof. intros st [H B]. split; [exact H|]. cbn. lra. Qed.

Lemma safe_advance (h : Q) : hoare (Safe ok) (advance h) (fun _ => Safe ok).
Proof. intros st H. exact H. Qed.

(** Reading the cursor. *)
Lemma hoare_getY {A} (P : State -> Prop) (k : Q -> M A)
    (R : A -> State -> Prop) :
  (forall y, hoare (fun st => P st /\ yPosition st = y) (k y) R) ->
  hoare P (bind getY k) R.
Proof. intros H st HP. exact (H (yPosition st) st (conj HP eq_refl)). Qed.

(** Drawing with the cursor at [y], where a block of height [r] fits: the
    item may reach down to [y + r]. *)
Lemma fits_text (r y : Q) (s : jsstring) (x y' : Q) :
  y' <= y + r ->
  hoare (fun st => Fits env ok r st /\ yPosition st = y)
        (Pdf.text s x y') (fun _ => Fits env ok r).
Proof.
  intros Hy st [[H B] E]. subst y. split; [|exact B].
  apply (safe_draw _ st H). cbn [itemBottom]. lra.
Qed.

Lemma fits_textWithLink (r y : Q) (s : jsstring) (x y' : Q) (link : jsstring) :
  y' <= y + r ->
  hoare (fun st => Fits env ok r st /\ yPosition st = y)
        (Pdf.textWithLink s x y' link) (fun _ => Fits env ok r).
Proof.
  intros Hy st [[H B] E]. subst y. split; [|exact B].
  apply (safe_draw _ st H). cbn [itemBottom]. lra.
Qed.

Lemma fits_roundedRect (r y : Q) (x y' w h rx ry : Q) :
  y' + h <= y + r ->
  hoare (fun st => Fits env ok r st /\ yPosition st = y)
        (Pdf.roundedRect x y' w h rx ry) (fun _ => Fits env ok r).
Proof.
  intros Hy st [[H B] E]. subst y. split; [|exact B].
  apply (safe_draw _ st H). cbn [itemBottom]. lra.
Qed.

(** A call that changes neither the cursor nor the items. *)
Ltac same_state := let st := fresh "st" in let H := fresh "H" in
  intros st H; exact H.

(** [m ;; k] where [m] is such a call. *)
Ltac skip :=
  lazymatch goal with
  | |- hoare ?P (bind _ _) _ =>
      eapply hoare_bind with (R := fun _ => P);
      [first [same_state | destruct (role _); same_state]
      |intros ?; cbv beta]
  end.

(** [m ;; k] where [lem] is a triple for [m]. *)
Ltac step lem := eapply hoare_bind; [lem|intros ?; cbv beta].

(** A drawing call at the cursor [y], after a check. *)
Ltac draw :=
  first [apply fits_text | apply fits_textWithLink | apply fits_roundedRect];
  lra.

(** [y <- getY ;; draw ;; k]. *)
Ltac draw_then := apply hoare_getY; intro; step draw.

(** [y <- getY ;; draw], the last call of a block. *)
Ltac draw_last := apply hoare_getY; intro; draw.

Lemma safe_drawLineParts (ps : list Part) :
  hoare (Safe ok) (drawLineParts env ps) (fun _ => Fits env ok 0).
Proof.
  unfold drawLineParts.
  step ltac:(apply (check_fits 6); lra).
  eapply hoare_bind with (R := fun _ => Fits env ok 6).
  - apply (hoare_foldM (fun _ => Fits env ok 6)). intros x p st [H B].
    split; [|exact B]. apply (safe_draw _ _ H). cbn. lra.
  - intros ?; cbv beta.
    eapply hoare_consequence; [apply (fits_advance 6 6)|auto|].
    intros ? st. apply Fits_less. lra.
Qed.

Lemma safe_drawLineIfAny (ps : list Part) :
  hoare (Safe ok) (drawLineIfAny env ps) (fun _ => Safe ok).
Proof.
  unfold drawLineIfAny. destruct (0 <? length ps)%nat; [|same_state].
  eapply hoare_consequence; [apply safe_drawLineParts|auto|].
  intros ? st. apply Fits_Safe.
Qed.

Lemma safe_wrapStep (cur : list N * list Part) (p : Part) :
  hoare (Safe ok) (wrapStep env cur p) (fun _ => Safe ok).
Proof.
  intros st H. rewrite wrapStep_eq. cbv zeta.
  destruct (Qgtb _ _); cbn [fst snd]; [|exact H].
  apply (safe_drawLineIfAny (snd cur)). exact H.
Qed.

(** The loop leaves something to draw as soon as there is a run. *)
Lemma wrapLoop_leaves_a_line (parts : list Part) :
  forall (cur : list N * list Part) (st : State),
    parts <> [] \/ snd cur <> [] ->
    snd (fst (foldM parts cur (wrapStep env) st)) <> [].
Proof.
  induction parts as [|p parts IH]; intros cur st H; cbn [foldM].
  - destruct H as [H|H]; [contradiction|exact H].
  - unfold bind. rewrite wrapStep_eq. cbv zeta.
    destruct (Qgtb _ _); apply IH; right; cbn [snd]; [discriminate|].
    destruct (snd cur); discriminate.
Qed.

Lemma fits_renderParts (parts : list Part) :
  parts <> [] ->
  hoare (Safe ok) (renderParts env parts) (fun _ => Fits env ok 0).
Proof.
  intros Hp st H. unfold renderParts, bind.
  pose proof (hoare_foldM (fun _ => Safe ok) parts (wrapStep env) safe_wrapStep
                ([], []) st H) as H1.
  pose proof (wrapLoop_leaves_a_line parts ([], []) st (or_introl Hp)) as H2.
  destruct (foldM parts ([], []) (wrapStep env) st) as [cur st'].
  cbn [fst snd] in *. unfold drawLineIfAny.
  destruct (snd cur) as [|q qs]; [contradiction|].
  apply (safe_drawLineParts (q :: qs) st' H1).
Qed.

(** After a body line, blank or not, the cursor is within the bound. *)
Lemma safe_renderLine (line : jsstring) :
  hoare (Safe ok) (renderLine env line) (fun _ => Fits env ok 0).
Proof.
  unfold renderLine. destruct (truthy (trim line)); cbn [negb].
  - apply fits_renderParts, tokenize_nonempty.
  - step ltac:(apply (check_fits 5); lra).
    eapply hoare_consequence; [apply (fits_advance 5 5)|auto|].
    intros ? st. apply Fits_less. lra.
Qed.

Lemma safe_renderSender (userName : jsstring) (m : Message) :
  hoare (Safe ok) (renderSender env userName m) (fun _ => Fits env ok 15).
Proof.
  unfold renderSender.
  step ltac:(apply (check_fits 15); lra).
  skip. draw_then. skip. skip. skip. draw_last.
Qed.

Lemma fits_renderTimestamp (m : Message) :
  hoare (Fits env ok 15) (renderTimestamp env m) (fun _ => Fits env ok 15).
Proof.
  unfold renderTimestamp.
  destruct (createdAt m) as [stamp|]; [|same_state].
  destruct (truthy stamp); [|same_state].
  skip. skip. skip. skip. draw_last.
Qed.

Lemma safe_renderReference (idx : nat) (result : SearchResult) :
  hoare (Safe ok) (renderReference env idx result) (fun _ => Safe ok).
Proof.
  unfold renderReference.
  step ltac:(apply (check_fits 12); lra).
  skip. skip. skip.
  eapply hoare_bind with (R := fun _ => Safe ok).
  { eapply hoare_consequence;
      [apply (hoare_forEach (Safe ok))|apply Fits_Safe|auto].
    intro titleLine.
    step ltac:(apply (check_fits 5); lra).
    draw_then.
    eapply hoare_consequence; [apply (fits_advance 5 5)|auto|].
    intros ? st. apply Fits_Safe. }
  intros ?; cbv beta.
  skip. skip. skip.
  step ltac:(apply (check_fits 4); lra).
  draw_then.
  eapply hoare_consequence; [apply (fits_advance 4 5)|auto|].
  intros ? st. apply Fits_Safe.
Qed.

Lemma safe_renderReferences (m : Message) :
  hoare (Safe ok) (renderReferences env m) (fun _ => Safe ok).
Proof.
  unfold renderReferences.
  destruct (searchResults m) as [results|]; [|same_state].
  destruct (0 <? length results)%nat; [|same_state].
  step ltac:(apply (check_fits 10); lra).
  skip. skip. skip.
  draw_then.
  eapply hoare_bind with (R := fun _ => Safe ok).
  { eapply hoare_consequence; [apply (fits_advance 10 6)|auto|].
    intros ? st. apply Fits_Safe. }
  intros ?; cbv beta.
  step ltac:(apply (hoare_forEachIndexed (Safe ok)), safe_renderReference).
  apply safe_advance.
Qed.

Lemma safe_renderMessage (userName : jsstring) (m : Message) :
  hoare (Safe ok) (renderMessage env userName m) (fun _ => Safe ok).
Proof.
  unfold renderMessage.
  step ltac:(apply safe_renderSender).
  step ltac:(apply fits_renderTimestamp).
  step ltac:(apply (fits_advance 15 10)).
  skip. skip.
  eapply hoare_bind with (R := fun _ => Safe ok).
  { eapply hoare_consequence;
      [apply (hoare_forEach (Safe ok))|apply Fits_Safe|auto].
    intro line.
    eapply hoare_consequence; [apply safe_renderLine|auto|].
    intros ? st. apply Fits_Safe. }
  intros ?; cbv beta.
  step ltac:(apply safe_advance).
  step ltac:(apply safe_renderReferences).
  apply safe_advance.
Qed.

Lemma safe_renderHeader (conversationTitle : jsstring) :
  hoare (Safe ok) (renderHeader env conversationTitle) (fun _ => Safe ok).
Proof.
  intros st H. unfold renderHeader.
  assert (B : 35 <= usableBottom env) by (unfold usableBottom, margin; lra).
  unfold Safe in *. cbn. rewrite <- !app_assoc. cbn.
  apply Forall_app. split; [exact H|].
  repeat constructor; apply ok_within; cbn; lra.
Qed.

Lemma safe_layout (props : ExportConversationPDFProps) :
  hoare (Safe ok) (layout env props) (fun _ => Safe ok).
Proof.
  unfold layout.
  step ltac:(apply safe_renderHeader).
  apply hoare_forEach. intro m. apply safe_renderMessage.
Qed.

(** The spacing that closes a reference, a reference list and a message
    is not checked for; the cursor passes the bound by 9 at most. *)
Lemma slack_renderReference (idx : nat) (result : SearchResult) :
  hoare (Safe ok) (renderReference env idx result) (fun _ => Fits env ok (-1)).
Proof.
  unfold renderReference.
  step ltac:(apply (check_fits 12); lra).
  skip. skip. skip.
  eapply hoare_bind with (R := fun _ => Safe ok).
  { eapply hoare_consequence;
      [apply (hoare_forEach (Safe ok))|apply Fits_Safe|auto].
    intro titleLine.
    step ltac:(apply (check_fits 5); lra).
    draw_then.
    eapply hoare_consequence; [apply (fits_advance 5 5)|auto|].
    intros ? st. apply Fits_Safe. }
  intros ?; cbv beta.
  skip. skip. skip.
  step ltac:(apply (check_fits 4); lra).
  draw_then.
  eapply hoare_consequence; [apply (fits_advance 4 5)|auto|].
  intros ? st. apply Fits_less. lra.
Qed.

Lemma slack_renderReferences (m : Message) :
  hoare (Fits env ok (-3)) (renderReferences env m) (fun _ => Fits env ok (-4)).
Proof.
  unfold renderReferences.
  assert (W : hoare (Fits env ok (-3)) (ret tt) (fun _ => Fits env ok (-4))).
  { intros st H. apply (Fits_less (-3)); [lra|exact H]. }
  destruct (searchResults m) as [results|]; [|exact W].
  destruct (0 <? length results)%nat; [|exact W].
  eapply hoare_bind with (R := fun _ => Fits env ok 10).
  { eapply hoare_consequence; [apply (check_fits 10); lra|apply Fits_Safe|auto]. }
  intros ?; cbv beta.
  skip. skip. skip.
  draw_then.
  eapply hoare_bind with (R := fun _ => Fits env ok (-1)).
  { eapply hoare_consequence; [apply (fits_advance 10 6)|auto|].
    intros ? st. apply Fits_less. lra. }
  intros ?; cbv beta.
  eapply hoare_bind with (R := fun _ => Fits env ok (-1)).
  { apply (hoare_forEachIndexed (Fits env ok (-1))). intros i result.
    eapply hoare_consequence;
      [apply slack_renderReference|apply Fits_Safe|auto]. }
  intros ?; cbv beta.
  eapply hoare_consequence; [apply (fits_advance (-1) 3)|auto|].
  intros ? st. apply Fits_less. lra.
Qed.

Lemma slack_renderMessage (userName : jsstring) (m : Message) :
  hoare (Safe ok) (renderMessage env userName m) (fun _ => Fits env ok (-9)).
Proof.
  unfold renderMessage.
  step ltac:(apply safe_renderSender).
  step ltac:(apply fits_renderTimestamp).
  eapply hoare_bind with (R := fun _ => Fits env ok 0).
  { eapply hoare_consequence; [apply (fits_advance 15 10)|auto|].
    intros ? st. apply Fits_less. lra. }
  intros ?; cbv beta.
  skip. skip.
  eapply hoare_bind with (R := fun _ => Fits env ok 0).
  { apply (hoare_forEach (Fits env ok 0)). intro line.
    eapply hoare_consequence; [apply safe_renderLine|apply Fits_Safe|auto]. }
  intros ?; cbv beta.
  step ltac:(apply (fits_advance 0 3)).
  eapply hoare_bind with (R := fun _ => Fits env ok (-4)).
  { eapply hoare_consequence; [apply slack_renderReferences| |auto].
    intros st. apply Fits_less. lra. }
  intros ?; cbv beta.
  eapply hoare_consequence; [apply (fits_advance (-4) 5)|auto|].
  intros ? st. apply Fits_less. lra.
Qed.

Lemma slack_layout (props : ExportConversationPDFProps) :
  hoare (Safe ok) (layout env props) (fun _ => Fits env ok (-9)).
Proof.
  unfold layout.
  eapply hoare_bind with (R := fun _ => Fits env ok (-9)).
  { intros st H. split; [exact (safe_renderHeader _ st H)|].
    unfold usableBottom, margin. cbn. lra. }
  intros ?; cbv beta.
  apply (hoare_forEach (Fits env ok (-9))). intro m.
  eapply hoare_consequence; [apply slack_renderMessage|apply Fits_Safe|auto].
Qed.

End CursorFacts.

(** With two messages the second one starts on a new page, at the top
    margin. *)
Example second_message_starts_a_new_page :
  pageCount (doc (run (layout A4.env (A4.request [A4.spacer; A4.hello]))
                      initialState)) = 2%nat
  /\ yPosition (run (renderSender A4.env (js "User") A4.hello)
                    (run (layout A4.env (A4.request [A4.spacer])) initialState))
     = margin.
Proof. split; vm_compute; reflexivity. Qed.

(** C6, as stated, fails: the advances that follow a message body are not
    preceded by a space check.  After a message of 44 empty lines the cursor
    is at 272, within the bound 272.00008; the spacing of 3 and 5 that ends
    the message moves it to 280, beyond the bound, and no page break has
    happened. *)
Lemma cursor_bound_counterexample :
  yPosition (run (layout A4.env (A4.request [A4.spacer])) initialState) = 280
  /\ usableBottom A4.env
     < yPosition (run (layout A4.env (A4.request [A4.spacer])) initialState)
  /\ pageCount (doc (run (layout A4.env (A4.request [A4.spacer])) initialState))
     = 1%nat.
Proof.
  split; [vm_compute; reflexivity|]. split; [|vm_compute; reflexivity].
  vm_compute. reflexivity.
Qed.

(** C6, amended. On a page at least 60 high, nothing that the layout pass
    draws reaches below [pageHeight - margin - 10]: every drawing at the
    cursor comes after a space check for its block.  After every body
    line, blank or drawn, the cursor itself is within that bound.  A space
    check that finds the block overflowing sets the cursor to the top
    margin and adds a page.  (The spacing after a message body, after a
    reference list and between messages is added without a check.) *)
Theorem layout_draws_within_bound :
  forall (env : Env) (props : ExportConversationPDFProps),
    60 <= pageHeight env ->
    Forall (fun entry => itemBottom (snd entry) <= usableBottom env)
           (items (doc (run (layout env props) initialState)))
    /\ (forall (line : jsstring) (st : State),
          yPosition (run (renderLine env line) st) <= usableBottom env)
    /\ (forall (h : Q) (st : State),
          usableBottom env < yPosition st + h ->
          yPosition (run (checkNewPage env h) st) = margin
          /\ pageCount (doc (run (checkNewPage env h) st))
             = S (pageCount (doc st))).
Proof.
  intros env props tall. split; [|split].
  - apply (safe_layout env tall (fun it => itemBottom it <= usableBottom env)
             (fun it H => H) props initialState).
    constructor.
  - intros line st.
    destruct (safe_renderLine env tall (fun _ => True) (fun _ _ => I) line st)
      as [_ B].
    + apply Forall_forall. intros; exact I.
    + unfold run. lra.
  - intros h st H. apply Qgtb_true_iff in H.
    unfold run, checkNewPage, bind, getY, usableBottom in *.
    rewrite H. split; reflexivity.
Qed.

Lemma layout_draws_within_bound_witness :
  Forall (fun entry => itemBottom (snd entry) <= usableBottom A4.env)
         (items (doc (run (layout A4.env (A4.request [A4.spacer; A4.hello]))
                          initialState)))
  /\ (forall (line : jsstring) (st : State),
        yPosition (run (renderLine A4.env line) st) <= usableBottom A4.env)
  /\ (forall (h : Q) (st : State),
        usableBottom A4.env < yPosition st + h ->
        yPosition (run (checkNewPage A4.env h) st) = margin
        /\ pageCount (doc (run (checkNewPage A4.env h) st))
           = S (pageCount (doc st))).
Proof.
  apply (layout_draws_within_bound A4.env (A4.request [A4.spacer; A4.hello])).
  unfold Qle. cbn. lia.
Defined.

(** * Further properties of the export code *)

(** ** Invariants of the layout pass *)

Section LayoutInvariant.

Variable env : Env.

(** A property of states that every call made by the layout pass keeps. *)
Variable I : State -> Prop.

Hypothesis I_cursor : forall y st, I st -> I (run (setY y) st).
Hypothesis I_graphics :
  forall f : Doc -> Doc,
    (forall d, pageCount (f d) = pageCount d
               /\ currentPage (f d) = currentPage d
               /\ items (f d) = items d) ->
    forall st, I st -> I (run (onDoc f) st).
Hypothesis I_addPage : forall st, I st -> I (run Pdf.addPage st).
Hypothesis I_draw : forall it st,
  linkShown it -> I st -> I (run (onDoc (Pdf.draw it)) st).

Definition keeps {A} (m : M A) : Prop := hoare I m (fun _ => I).

Lemma keeps_bind {A B} (m : M A) (k : A -> M B) :
  keeps m -> (forall a, keeps (k a)) -> keeps (bind m k).
Proof. intros Hm Hk. eapply hoare_bind; [exact Hm|]. intro a. apply Hk. Qed.

Lemma keeps_forEach {A} (l : list A) (body : A -> M unit) :
  (forall a, keeps (body a)) -> keeps (forEach l body).
Proof. intro H. apply hoare_forEach. exact H. Qed.

Lemma keeps_forEachIndexed {A} (l : list A) (body : nat -> A -> M unit) (idx : nat) :
  (forall i a, keeps (body i a)) -> keeps (forEachIndexed idx l body).
Proof. intro H. apply (hoare_forEachIndexed I l body H). Qed.

Lemma keeps_foldM {A S} (l : list A) (s : S) (body : S -> A -> M S) :
  (forall s a, keeps (body s a)) -> keeps (foldM l s body).
Proof. intro H. apply (hoare_foldM (fun _ => I) l body H). Qed.

(** One call of the drawing interface, or a pure step. *)
Ltac call :=
  let st := fresh "st" in let H := fresh "H" in
  intros st H;
  first
    [ exact H
    | apply I_cursor; exact H
    | apply I_addPage; exact H
    | apply I_draw; [exact I || reflexivity | exact H]
    | apply I_graphics; [intro; repeat split; reflexivity | exact H] ].

(** A block of calls in sequence, with its branches. *)
Ltac block :=
  repeat
    first
      [ solve [auto]
      | apply keeps_bind; [|intro]
      | apply keeps_forEach; intro
      | apply keeps_forEachIndexed; intros ? ?
      | apply keeps_foldM; intros ? ?
      | match goal with
        | |- keeps (if ?c then _ else _) => destruct c
        | |- keeps (match ?c with Some _ => _ | None => _ end) => destruct c
        end
      | progress cbv beta zeta
      | call ].

Lemma keeps_checkNewPage (h : Q) : keeps (checkNewPage env h).
Proof. unfold checkNewPage. block. Qed.

Lemma keeps_advance (h : Q) : keeps (advance h).
Proof. unfold advance. block. Qed.

Lemma keeps_drawLineIfAny (ps : list Part) : keeps (drawLineIfAny env ps).
Proof.
  pose proof keeps_checkNewPage. pose proof keeps_advance.
  unfold drawLineIfAny, drawLineParts. block.
Qed.

Lemma keeps_renderLine (line : jsstring) : keeps (renderLine env line).
Proof.
  pose proof keeps_checkNewPage. pose proof keeps_advance.
  pose proof keeps_drawLineIfAny.
  unfold renderLine, renderParts, wrapStep. block.
Qed.

Lemma keeps_renderMessage (userName : jsstring) (m : Message) :
  keeps (renderMessage env userName m).
Proof.
  pose proof keeps_checkNewPage. pose proof keeps_advance.
  pose proof keeps_renderLine.
  unfold renderMessage, renderSender, renderTimestamp, renderReferences,
    renderReference.
  block.
Qed.

Lemma keeps_layout (props : ExportConversationPDFProps) :
  keeps (layout env props).
Proof.
  pose proof keeps_renderMessage.
  unfold layout, renderHeader. block.
Qed.

End LayoutInvariant.

(** ** Pages *)

Lemma ascending_snoc (l : list nat) (x : nat) :
  ascending l -> Forall (fun a => (a <= x)%nat) l -> ascending (l ++ [x]).
Proof.
  induction l as [|a l IH]; intros A F; [exact Logic.I|].
  inversion F as [|? ? Ha Hl]; subst.
  destruct l as [|b l]; [cbn; auto|].
  destruct A as [Hab A]. cbn [app]. split; [exact Hab|]. apply IH; assumption.
Qed.

Lemma PagesValid_draw (it : Item) (st : State) :
  PagesValid st -> PagesValid (run (onDoc (Pdf.draw it)) st).
Proof.
  intros (H1 & H2 & H3 & H4). unfold PagesValid. cbn.
  repeat split; try assumption.
  - apply Forall_app. split; [exact H3|].
    constructor; [|constructor]. cbn. lia.
  - rewrite map_app. apply ascending_snoc; [exact H4|].
    rewrite Forall_map. eapply Forall_impl; [|exact H3].
    cbn. intros e He. lia.
Qed.

Lemma PagesValid_addPage (st : State) :
  PagesValid st -> PagesValid (run Pdf.addPage st).
Proof.
  intros (H1 & H2 & H3 & H4). unfold PagesValid. cbn.
  repeat split; try assumption; try lia.
  eapply Forall_impl; [|exact H3]. cbn. intros e He. lia.
Qed.

Lemma PagesValid_graphics (f : Doc -> Doc) :
  (forall d, pageCount (f d) = pageCount d
             /\ currentPage (f d) = currentPage d
             /\ items (f d) = items d) ->
  forall st, PagesValid st -> PagesValid (run (onDoc f) st).
Proof.
  intros Hf st H. unfold PagesValid in *. cbn.
  destruct (Hf (doc st)) as (-> & -> & ->). exact H.
Qed.

Lemma layout_keeps_pages (env : Env) (props : ExportConversationPDFProps) :
  PagesValid (run (layout env props) initialState).
Proof.
  apply (keeps_layout env PagesValid
           (fun y st H => H) PagesValid_graphics PagesValid_addPage
           (fun it st _ => PagesValid_draw it st) props initialState).
  unfold PagesValid. cbn. repeat split; auto.
Qed.

(** X2. During the layout pass the document always has a page, the current
    page is the last one, every item lies on an existing page, and items
    are drawn page after page: nothing is drawn back onto an earlier
    page. *)
Theorem layout_pages_valid :
  forall (env : Env) (props : ExportConversationPDFProps),
    (1 <= pageCount (doc (run (layout env props) initialState)))%nat
    /\ currentPage (doc (run (layout env props) initialState))
       = pageCount (doc (run (layout env props) initialState))
    /\ Forall (fun entry =>
                 (1 <= fst entry
                  <= pageCount (doc (run (layout env props) initialState)))%nat)
              (items (doc (run (layout env props) initialState)))
    /\ ascending (map fst (items (doc (run (layout env props) initialState)))).
Proof.
  intros env props. exact (layout_keeps_pages env props).
Qed.

(** ** Footers *)

Lemma renderFooter_items (env : Env) (pc i : nat) (st : State) :
  items (doc (run (renderFooter env pc i) st))
  = items (doc st) ++ [footerItem env pc i]
  /\ pageCount (doc (run (renderFooter env pc i) st)) = pageCount (doc st).
Proof. split; reflexivity. Qed.

Lemma renderFooters_items (env : Env) (pc : nat) (l : list nat) :
  forall st : State,
    items (doc (run (forEach l (renderFooter env pc)) st))
    = items (doc st) ++ map (footerItem env pc) l
    /\ pageCount (doc (run (forEach l (renderFooter env pc)) st))
       = pageCount (doc st).
Proof.
  induction l as [|i l IH]; intro st.
  - cbn. rewrite app_nil_r. split; reflexivity.
  - rewrite run_forEach_cons.
    destruct (IH (run (renderFooter env pc i) st)) as [E1 E2].
    destruct (renderFooter_items env pc i st) as [F1 F2].
    rewrite E1, E2, F1, F2, <- app_assoc. split; reflexivity.
Qed.

Lemma renderFooters_all (env : Env) (st : State) :
  items (doc (run (renderFooters env) st))
  = items (doc st)
    ++ map (footerItem env (pageCount (doc st))) (seq 1 (pageCount (doc st)))
  /\ pageCount (doc (run (renderFooters env) st)) = pageCount (doc st).
Proof.
  unfold renderFooters. rewrite run_bind.
  exact (renderFooters_items env (pageCount (doc st))
           (seq 1 (pageCount (doc st))) st).
Qed.

Lemma render_eq (env : Env) (props : ExportConversationPDFProps) :
  render env props = run (renderFooters env) (run (layout env props) initialState).
Proof.
  exact (run_bind (layout env props) (fun _ => renderFooters env) initialState).
Qed.

Lemma render_items (env : Env) (props : ExportConversationPDFProps) :
  items (doc (render env props))
  = items (doc (run (layout env props) initialState))
    ++ map (footerItem env (pageCount (doc (run (layout env props) initialState))))
           (seq 1 (pageCount (doc (run (layout env props) initialState))))
  /\ pageCount (doc (render env props))
     = pageCount (doc (run (layout env props) initialState)).
Proof.
  rewrite render_eq.
  exact (renderFooters_all env (run (layout env props) initialState)).
Qed.

(** X1. The footer pass leaves what the layout pass drew as it is and adds,
    for every page [i] from 1 to the page count [n] and in this order, one
    centred line "Page i/n | MedChat Medical AI | date" on page [i], 8
    above the bottom edge; it adds no page. *)
Theorem footer_on_every_page :
  forall (env : Env) (props : ExportConversationPDFProps),
    let laidOut := doc (run (layout env props) initialState) in
    items (doc (render env props))
    = items laidOut
      ++ map (footerItem env (pageCount laidOut)) (seq 1 (pageCount laidOut))
    /\ pageCount (doc (render env props)) = pageCount laidOut.
Proof.
  intros env props. cbv zeta.
  destruct (render_items env props) as [E1 E2].
  split; [exact E1|exact E2].
Qed.

(** ** Links *)

Lemma LinksShown_draw (it : Item) (st : State) :
  linkShown it -> LinksShown st -> LinksShown (run (onDoc (Pdf.draw it)) st).
Proof.
  intros Hit H. unfold LinksShown in *. cbn. apply Forall_app.
  split; [exact H|]. constructor; [exact Hit|constructor].
Qed.

Lemma LinksShown_graphics (f : Doc -> Doc) :
  (forall d, pageCount (f d) = pageCount d
             /\ currentPage (f d) = currentPage d
             /\ items (f d) = items d) ->
  forall st, LinksShown st -> LinksShown (run (onDoc f) st).
Proof.
  intros Hf st H. unfold LinksShown in *. cbn.
  destruct (Hf (doc st)) as (_ & _ & ->). exact H.
Qed.

(** X3. In the exported document every link region leads to the address
    that its text displays. *)
Theorem links_lead_where_they_show :
  forall (env : Env) (props : ExportConversationPDFProps),
    Forall (fun entry => linkShown (snd entry)) (items (doc (render env props))).
Proof.
  intros env props. destruct (render_items env props) as [-> _].
  apply Forall_app. split.
  - apply (keeps_layout env LinksShown
             (fun y st H => H) LinksShown_graphics (fun st H => H)
             LinksShown_draw props initialState).
    constructor.
  - apply Forall_map, Forall_forall. intros i _. exact Logic.I.
Qed.

(** ** The text of a transcript *)

Section TranscriptFacts.

Variable env : Env.

Lemma draws_bind {A B} (m : M A) (k : A -> M B) (t1 t2 : list jsstring) :
  Draws m t1 -> (forall a, Draws (k a) t2) -> Draws (bind m k) (t1 ++ t2).
Proof.
  intros Hm Hk l. eapply hoare_bind; [apply Hm|]. intro a. cbv beta.
  rewrite app_assoc. apply Hk.
Qed.

Lemma draws_eq {A} (m : M A) (t t' : list jsstring) :
  Draws m t -> t = t' -> Draws m t'.
Proof. intros H <-. exact H. Qed.

(** A call that draws no string. *)
Lemma draws_nothing {A} (m : M A) :
  (forall st, drawnTexts (snd (m st)) = drawnTexts st) -> Draws m [].
Proof.
  intros H l st E. unfold TextsAre in *. rewrite H, app_nil_r. exact E.
Qed.

Lemma draws_item (it : Item) : Draws (onDoc (Pdf.draw it)) (itemText it).
Proof.
  intros l st E. unfold TextsAre, drawnTexts in *. cbn.
  rewrite flat_map_app, E. cbn. rewrite app_nil_r. reflexivity.
Qed.

Lemma draws_text (s : jsstring) (x y : Q) : Draws (Pdf.text s x y) [s].
Proof.
  intros l st E.
  exact (draws_item (Text s x y (fontStyle (doc st)) (fontSize (doc st))
                       (textColor (doc st))) l st E).
Qed.

Lemma draws_textWithLink (s : jsstring) (x y : Q) (link : jsstring) :
  Draws (Pdf.textWithLink s x y link) [s].
Proof.
  intros l st E.
  exact (draws_item (TextWithLink s x y link (fontStyle (doc st))
                       (fontSize (doc st)) (textColor (doc st))) l st E).
Qed.

Lemma draws_rect (x y w h : Q) : Draws (Pdf.rect x y w h) [].
Proof.
  intros l st E. exact (draws_item (Rect x y w h (fillColor (doc st))) l st E).
Qed.

Lemma draws_roundedRect (x y w h rx ry : Q) :
  Draws (Pdf.roundedRect x y w h rx ry) [].
Proof.
  intros l st E.
  exact (draws_item (RoundedRect x y w h rx ry (fillColor (doc st))) l st E).
Qed.

Lemma draws_checkNewPage (h : Q) : Draws (checkNewPage env h) [].
Proof.
  apply draws_nothing. intro st. unfold checkNewPage, bind, getY.
  destruct (Qgtb _ _); reflexivity.
Qed.

Lemma draws_forEach {A} (f : A -> list jsstring) (body : A -> M unit) :
  (forall a, Draws (body a) (f a)) ->
  forall xs, Draws (forEach xs body) (flat_map f xs).
Proof.
  intros Hb xs. induction xs as [|a xs IH]; cbn [forEach flat_map].
  - apply draws_nothing. reflexivity.
  - apply draws_bind; [apply Hb|]. intros _. exact IH.
Qed.

Lemma flat_map_singleton {A} (l : list A) : flat_map (fun a => [a]) l = l.
Proof. induction l as [|a l IH]; [reflexivity|]. cbn. rewrite IH. reflexivity. Qed.

Lemma draws_renderLine (line : jsstring) :
  Draws (renderLine env line) (lineTexts line).
Proof.
  intro l. unfold lineTexts.
  eapply hoare_consequence;
    [apply (texts_renderLine env l line)|intros ? HP; exact HP|].
  cbv beta. intros _ st H. destruct (truthy (trim line)); [exact H|].
  rewrite app_nil_r. exact H.
Qed.

Lemma draws_silent (f : Doc -> Doc) :
  (forall d, items (f d) = items d) -> Draws (onDoc f) [].
Proof.
  intro H. apply draws_nothing. intro st. unfold drawnTexts. cbn.
  rewrite H. reflexivity.
Qed.

Lemma draws_getY : Draws getY [].
Proof. apply draws_nothing. reflexivity. Qed.

Lemma draws_setY (y : Q) : Draws (setY y) [].
Proof. apply draws_nothing. reflexivity. Qed.

Lemma draws_ret {A} (a : A) : Draws (ret a) [].
Proof. apply draws_nothing. reflexivity. Qed.

Lemma draws_advance (h : Q) : Draws (advance h) [].
Proof. apply draws_nothing. reflexivity. Qed.

Lemma draws_getTextWidth (s : jsstring) : Draws (Pdf.getTextWidth env s) [].
Proof. apply draws_nothing. reflexivity. Qed.

(** One step of a block of calls, chosen by the shape of the call. *)
Ltac call :=
  lazymatch goal with
  | |- Draws (bind _ _) _ => apply draws_bind; [|intro]
  | |- Draws (Pdf.text _ _ _) _ => apply draws_text
  | |- Draws (Pdf.textWithLink _ _ _ _) _ => apply draws_textWithLink
  | |- Draws (Pdf.rect _ _ _ _) _ => apply draws_rect
  | |- Draws (Pdf.roundedRect _ _ _ _ _ _) _ => apply draws_roundedRect
  | |- Draws (checkNewPage _ _) _ => apply draws_checkNewPage
  | |- Draws (Pdf.setFillColor _) _ => apply draws_silent; reflexivity
  | |- Draws (Pdf.setTextColor _) _ => apply draws_silent; reflexivity
  | |- Draws (Pdf.setFontSize _) _ => apply draws_silent; reflexivity
  | |- Draws (Pdf.setFont _) _ => apply draws_silent; reflexivity
  | |- Draws (Pdf.getTextWidth _ _) _ => apply draws_getTextWidth
  | |- Draws getY _ => apply draws_getY
  | |- Draws (setY _) _ => apply draws_setY
  | |- Draws (advance _) _ => apply draws_advance
  | |- Draws (ret _) _ => apply draws_ret
  end.

(** A block of calls in sequence. *)
Ltac block :=
  repeat first [ eassumption | progress cbv beta iota zeta | call ].

Lemma draws_renderSender (userName : jsstring) (m : Message) :
  Draws (renderSender env userName m) [senderLabel userName m].
Proof.
  unfold renderSender, senderLabel.
  destruct (role m); (eapply draws_eq; [block|reflexivity]).
Qed.

Lemma draws_renderTimestamp (m : Message) :
  Draws (renderTimestamp env m) (timestampTexts env m).
Proof.
  unfold renderTimestamp, timestampTexts.
  destruct (createdAt m) as [stamp|]; [|apply draws_ret].
  destruct (truthy stamp) eqn:T; [|apply draws_ret].
  eapply draws_eq; [block|]. reflexivity.
Qed.

Lemma draws_renderReference (idx : nat) (result : SearchResult) :
  Draws (renderReference env idx result) (referenceTexts env idx result).
Proof.
  unfold renderReference, referenceTexts.
  eapply draws_eq.
  - cbv zeta. do 4 (apply draws_bind; [block|intro]).
    apply draws_bind.
    + apply (draws_forEach (fun titleLine => [titleLine])).
      intro titleLine. eapply draws_eq; [block|]. reflexivity.
    + intro. block.
  - cbn. rewrite flat_map_singleton. reflexivity.
Qed.

Lemma draws_references (results : list SearchResult) :
  forall idx, Draws (forEachIndexed idx results (renderReference env))
                    (referenceListTexts env idx results).
Proof.
  induction results as [|r rs IH]; intro idx;
    cbn [forEachIndexed referenceListTexts].
  - apply draws_ret.
  - apply draws_bind; [apply draws_renderReference|]. intros _. apply IH.
Qed.

Lemma draws_renderReferences (m : Message) :
  Draws (renderReferences env m) (referencesTexts env m).
Proof.
  unfold renderReferences, referencesTexts.
  destruct (searchResults m) as [[|r rs]|];
    [apply draws_ret| |apply draws_ret].
  cbn [length Nat.ltb Nat.leb].
  pose proof (draws_references (r :: rs) 0).
  eapply draws_eq; [block|]. cbn. rewrite ?app_nil_r. reflexivity.
Qed.

Lemma draws_renderMessage (userName : jsstring) (m : Message) :
  Draws (renderMessage env userName m) (messageTexts env userName m).
Proof.
  pose proof (draws_renderSender userName m).
  pose proof (draws_renderTimestamp m).
  pose proof (draws_renderReferences m).
  pose proof (draws_forEach lineTexts (renderLine env) draws_renderLine
                (split LF (content m))).
  unfold renderMessage, messageTexts.
  eapply draws_eq; [block|]. cbn. rewrite ?app_nil_r. reflexivity.
Qed.

Lemma draws_renderHeader (conversationTitle : jsstring) :
  Draws (renderHeader env conversationTitle) (headerTexts env conversationTitle).
Proof.
  unfold renderHeader, headerTexts. cbv zeta.
  eapply draws_eq; [block|]. reflexivity.
Qed.

Lemma draws_layout (props : ExportConversationPDFProps) :
  Draws (layout env props)
        (headerTexts env (conversationTitle props)
         ++ flat_map (messageTexts env (userNameOrDefault props)) (messages props)).
Proof.
  unfold layout. apply draws_bind; [apply draws_renderHeader|]. intros _.
  apply draws_forEach. intro m. apply draws_renderMessage.
Qed.

End TranscriptFacts.

Lemma draws_run {A} (m : M A) (t : list jsstring) :
  Draws m t -> forall st, drawnTexts (run m st) = drawnTexts st ++ t.
Proof. intros H st. exact (H (drawnTexts st) st eq_refl). Qed.

Lemma footer_texts (env : Env) (n : nat) (pages : list nat)
    (drawn : list (nat * Item)) :
  flat_map (fun entry => itemText (snd entry))
           (drawn ++ map (footerItem env n) pages)
  = flat_map (fun entry => itemText (snd entry)) drawn
    ++ map (footerText env n) pages.
Proof.
  rewrite flat_map_app. f_equal.
  induction pages as [|i pages IH]; [reflexivity|].
  cbn [flat_map map app footerItem snd itemText]. f_equal. exact IH.
Qed.

(** X4. The strings of the exported document are, in this order: the three
    header lines (the title cut to 80 code units, "Conversation" when it is
    empty), then for every message in the order of the transcript its
    sender label, its time string when it has one, the runs of its lines
    that are not blank and its reference list ("References:", then for each
    reference the lines of its numbered title and its address), then one
    footer per page.  Page breaks and wrapping do not change them. *)
Theorem transcript_text_in_order :
  forall (env : Env) (props : ExportConversationPDFProps),
    drawnTexts (run (layout env props) initialState)
    = headerTexts env (conversationTitle props)
      ++ flat_map (messageTexts env (userNameOrDefault props)) (messages props)
    /\ drawnTexts (render env props)
       = drawnTexts (run (layout env props) initialState)
         ++ map (footerText env (pageCount (doc (run (layout env props) initialState))))
                (seq 1 (pageCount (doc (run (layout env props) initialState)))).
Proof.
  intros env props. split.
  - rewrite (draws_run _ _ (draws_layout env props) initialState).
    reflexivity.
  - destruct (render_items env props) as [E _].
    unfold drawnTexts. rewrite E. apply footer_texts.
Qed.

(** ** Visual lines *)

Lemma concat_lineIfAny (cur : list Part) : concat (lineIfAny cur) = cur.
Proof. destruct cur; [reflexivity|]. cbn. rewrite app_nil_r. reflexivity. Qed.

Lemma packRuns_concat (width : jsstring -> Q) (limit : Q) (parts : list Part) :
  forall (curText : jsstring) (cur : list Part),
    concat (packRuns width limit parts curText cur) = cur ++ parts.
Proof.
  induction parts as [|part rest IH]; intros curText cur; cbn [packRuns].
  - rewrite concat_lineIfAny, app_nil_r. reflexivity.
  - destruct (Qgtb _ _).
    + rewrite concat_app, concat_lineIfAny, IH. reflexivity.
    + rewrite IH, <- app_assoc. reflexivity.
Qed.

Lemma packRuns_no_empty_line (width : jsstring -> Q) (limit : Q)
    (parts : list Part) :
  forall (curText : jsstring) (cur : list Part),
    Forall (fun line => line <> []) (packRuns width limit parts curText cur).
Proof.
  assert (L : forall cur, Forall (fun line : list Part => line <> [])
                                 (lineIfAny cur)).
  { intros [|p ps]; [constructor|]. repeat constructor. discriminate. }
  induction parts as [|part rest IH]; intros curText cur; cbn [packRuns].
  - apply L.
  - destruct (Qgtb _ _); [|apply IH].
    apply Forall_app. split; [apply L|apply IH].
Qed.

Lemma packRuns_lines_fit (width : jsstring -> Q) (limit : Q)
    (parts : list Part) :
  forall (curText : jsstring) (cur : list Part),
    curText = concat (map text cur) ->
    (length cur <= 1)%nat \/ width curText <= limit ->
    Forall (fun line => length line = 1%nat
                        \/ width (concat (map text line)) <= limit)
           (packRuns width limit parts curText cur).
Proof.
  assert (L : forall curText cur,
             curText = concat (map text cur) ->
             (length cur <= 1)%nat \/ width curText <= limit ->
             Forall (fun line => length line = 1%nat
                                 \/ width (concat (map text line)) <= limit)
                    (lineIfAny cur)).
  { intros curText [|p ps] E H; [constructor|].
    constructor; [|constructor]. destruct H as [H|H].
    - left. cbn in *. lia.
    - right. rewrite <- E. exact H. }
  induction parts as [|part rest IH]; intros curText cur E H; cbn [packRuns].
  - exact (L curText cur E H).
  - destruct (Qgtb _ _) eqn:G.
    + apply Forall_app. split; [exact (L curText cur E H)|].
      apply IH; [cbn; rewrite app_nil_r; reflexivity|left; cbn; lia].
    + apply IH.
      * rewrite map_app, concat_app, <- E. cbn. rewrite app_nil_r. reflexivity.
      * right. apply Qgtb_false_iff. exact G.
Qed.

(** X5. The wrapping loop draws a sequence of visual lines that holds the
    runs of the logical line, each once and in order; no visual line is
    empty; and a visual line of two or more runs fits the width limit
    [maxWidth - 6] when its text is measured in the normal font, so only a
    run that stands alone on its line can be wider than the limit. *)
Theorem visual_lines_partition_runs :
  forall (env : Env) (parts : list Part) (st : State),
    let width := textWidth env Normal (fontSize (doc st)) in
    let lines := packRuns width (maxWidth env - 6) parts [] [] in
    run (renderParts env parts) st = run (forEach lines (drawLineParts env)) st
    /\ concat lines = parts
    /\ Forall (fun line => line <> []) lines
    /\ Forall (fun line => length line = 1%nat
                           \/ width (concat (map text line)) <= maxWidth env - 6)
              lines.
Proof.
  intros env parts st. cbv zeta. repeat split.
  - rewrite renderParts_renderFrom.
    apply (renderFrom_packRuns env (fontSize (doc st)) parts ([], []) st).
    reflexivity.
  - apply (packRuns_concat _ _ parts [] []).
  - apply packRuns_no_empty_line.
  - apply packRuns_lines_fit; [reflexivity|left; cbn; lia].
Qed.

(** ** Runs on a visual line *)

Lemma placeRuns_loop (env : Env) (ps : list Part) :
  forall (x : Q) (st : State),
    let body := fun (xPos : Q) (p : Part) =>
      Pdf.setFont (if bold p then Bold else Normal) ;;
      y <- getY ;;
      Pdf.text (text p) xPos y ;;
      w <- Pdf.getTextWidth env (text p) ;;
      ret (xPos + w) in
    let st' := snd (foldM ps x body st) in
    items (doc st')
    = items (doc st)
      ++ placeRuns env (currentPage (doc st)) (yPosition st)
           (fontSize (doc st)) (textColor (doc st)) x ps
    /\ yPosition st' = yPosition st
    /\ pageCount (doc st') = pageCount (doc st)
    /\ currentPage (doc st') = currentPage (doc st).
Proof.
  cbv zeta. induction ps as [|p ps IH]; intros x st.
  - cbn. rewrite app_nil_r. repeat split; reflexivity.
  - match goal with
    | |- context [foldM (p :: ps) x ?body st] =>
        assert (S : foldM (p :: ps) x body st
                    = foldM ps (x + textWidth env (partStyle p)
                                      (fontSize (doc st)) (text p))
                        body
                        (run (Pdf.text (text p) x (yPosition st))
                             (run (Pdf.setFont (partStyle p)) st)))
          by reflexivity;
        rewrite S
    end.
    match goal with
    | |- context [foldM ps ?x' _ ?s'] =>
        destruct (IH x' s') as (E1 & E2 & E3 & E4)
    end.
    rewrite E1, E2, E3, E4. cbn. rewrite <- app_assoc.
    repeat split; reflexivity.
Qed.

(** X6. A visual line is drawn after the space check for a height of 6:
    all its runs lie on the page and baseline that the check leaves, the
    first at [margin + 3] and each next one where the previous one ends
    when measured under its own style, in the current size and colour;
    then the cursor moves down by 6. *)
Theorem visual_line_layout :
  forall (env : Env) (ps : list Part) (st : State),
    let checked := run (checkNewPage env 6) st in
    items (doc (run (drawLineParts env ps) st))
    = items (doc st)
      ++ placeRuns env (currentPage (doc checked)) (yPosition checked)
           (fontSize (doc st)) (textColor (doc st)) (margin + 3) ps
    /\ yPosition (run (drawLineParts env ps) st) = yPosition checked + 6
    /\ pageCount (doc (run (drawLineParts env ps) st)) = pageCount (doc checked).
Proof.
  intros env ps st. cbv zeta. unfold drawLineParts.
  rewrite !run_bind.
  set (checked := run (checkNewPage env 6) st).
  destruct (placeRuns_loop env ps (margin + 3) checked) as (E1 & E2 & E3 & E4).
  cbv zeta in E1, E2, E3, E4.
  match goal with
  | |- context [run (advance 6) ?s] =>
      assert (A : doc (run (advance 6) s) = doc s
                  /\ yPosition (run (advance 6) s) = yPosition s + 6)
        by (split; reflexivity);
      destruct A as [A1 A2]; rewrite A1, A2
  end.
  assert (C : items (doc checked) = items (doc st)
              /\ fontSize (doc checked) = fontSize (doc st)
              /\ textColor (doc checked) = textColor (doc st)).
  { unfold checked, run, checkNewPage, bind, getY.
    destruct (Qgtb _ _); repeat split; reflexivity. }
  destruct C as (C1 & C2 & C3).
  unfold run at 1 2 3. rewrite E1, E2, E3, C1, C2, C3.
  repeat split; reflexivity.
Qed.

(** ** Blank lines *)

Lemma dropWhile_nil_iff (p : N -> bool) (s : jsstring) :
  dropWhile p s = [] <-> forallb p s = true.
Proof.
  induction s as [|c r IH]; cbn; [tauto|].
  destruct (p c); cbn; [exact IH|]. split; discriminate.
Qed.

Lemma forallb_rev (p : N -> bool) (s : jsstring) :
  forallb p (rev s) = forallb p s.
Proof.
  induction s as [|c r IH]; [reflexivity|].
  cbn. rewrite forallb_app, IH. cbn. rewrite andb_true_r. apply andb_comm.
Qed.

Lemma dropWhile_head (p : N -> bool) (s : jsstring) :
  dropWhile p s = [] \/ forallb p (dropWhile p s) = false.
Proof.
  induction s as [|c r IH]; cbn; [left; reflexivity|].
  destruct (p c) eqn:E; [exact IH|]. right. cbn. rewrite E. reflexivity.
Qed.

(** [!line.trim()] holds exactly for the lines made of white space and
    line terminators only. *)
Lemma trim_blank_iff (line : jsstring) :
  truthy (trim line) = false <-> forallb isTrimmed line = true.
Proof.
  assert (T : forall s : jsstring, truthy s = false <-> s = []).
  { intros [|c r]; cbn; split; intro H; try reflexivity; discriminate. }
  rewrite T. unfold trim. split; intro H.
  - assert (R : dropWhile isTrimmed (rev (dropWhile isTrimmed line)) = []).
    { rewrite <- (rev_involutive (dropWhile _ (rev _))), H. reflexivity. }
    apply dropWhile_nil_iff in R. rewrite forallb_rev in R.
    destruct (dropWhile_head isTrimmed line) as [D|D].
    + apply dropWhile_nil_iff. exact D.
    + congruence.
  - apply dropWhile_nil_iff in H. rewrite H. reflexivity.
Qed.

(** X7. A logical line is treated as a blank spacer exactly when all its
    code units are white space or line terminators, and exactly then
    nothing of it is drawn.  A spacer leaves the items as they are and
    moves the cursor down by 5, from the top margin of a new page when
    [cursor + 5] exceeded the bound. *)
Theorem blank_line_is_a_spacer :
  forall (env : Env) (line : jsstring) (st : State),
    (drawnTexts (run (renderLine env line) st) = drawnTexts st
     <-> forallb isTrimmed line = true)
    /\ (forallb isTrimmed line = true ->
        items (doc (run (renderLine env line) st)) = items (doc st)
        /\ yPosition (run (renderLine env line) st)
           = (if Qgtb (yPosition st + 5) (pageHeight env - margin - 10)
              then margin else yPosition st) + 5).
Proof.
  intros env line st.
  pose proof (texts_renderLine env (drawnTexts st) line st eq_refl) as H.
  cbv beta in H. unfold TextsAre in H. fold (run (renderLine env line) st) in H.
  split; [split|].
  - intro E. apply trim_blank_iff.
    destruct (truthy (trim line)); [|reflexivity].
    rewrite E in H. apply (f_equal (@length _)) in H.
    rewrite length_app, length_map in H.
    pose proof (tokenize_nonempty line) as NE.
    destruct (tokenize line); [contradiction|]. cbn in H. lia.
  - intro B. apply trim_blank_iff in B. rewrite B in H. exact H.
  - intro B. apply trim_blank_iff in B. unfold renderLine. rewrite B.
    cbn [negb]. unfold run, checkNewPage, bind, getY.
    destruct (Qgtb _ _); split; reflexivity.
Qed.

(** ** From the content to the runs and back *)

Lemma split_nonempty (sep : N) (s : jsstring) : split sep s <> [].
Proof.
  induction s as [|c r IH]; cbn; [discriminate|].
  destruct (c =? sep)%N; [discriminate|].
  destruct (split sep r); discriminate.
Qed.

Lemma join_split (sep : N) (s : jsstring) : join sep (split sep s) = s.
Proof.
  induction s as [|c r IH]; [reflexivity|].
  cbn [split]. pose proof (split_nonempty sep r) as NE.
  destruct (N.eqb_spec c sep) as [->|_].
  - destruct (split sep r) as [|piece pieces]; [contradiction|].
    cbn [join app]. cbn [join] in IH. rewrite IH. reflexivity.
  - destruct (split sep r) as [|piece pieces]; [contradiction|].
    cbn [join] in IH |- *. destruct pieces; cbn [app]; rewrite IH; reflexivity.
Qed.

Lemma split_pieces_without_sep (sep : N) (s : jsstring) :
  Forall (fun piece => ~ In sep piece) (split sep s).
Proof.
  induction s as [|c r IH]; cbn [split]; [repeat constructor; auto|].
  destruct (N.eqb_spec c sep) as [->|D].
  - constructor; [auto|exact IH].
  - destruct (split sep r) as [|piece pieces]; [repeat constructor|].
    + intros [E|[]]. congruence.
    + inversion IH as [|? ? Hp Hps]; subst. constructor; [|exact Hps].
      intros [E|E]; [congruence|contradiction].
Qed.

(** X8. Nothing of a message's content is lost on the way to the runs: the
    logical lines hold no line feed, and writing every line back from its
    runs (with [**] around the bold ones) and joining the lines with line
    feeds gives the content. *)
Theorem content_recovered_from_runs :
  forall content : jsstring,
    join LF (map (fun line => unparse (tokenize line)) (split LF content))
    = content
    /\ Forall (fun line => ~ In LF line) (split LF content).
Proof.
  intro content. split; [|apply split_pieces_without_sep].
  rewrite (map_ext _ (fun line => line) tokenize_unparse), map_id.
  apply join_split.
Qed.

(** ** The file name, again *)

Lemma replaceNonAlnum_idempotent (s : jsstring) :
  replaceNonAlnum (replaceNonAlnum s) = replaceNonAlnum s.
Proof.
  unfold replaceNonAlnum. rewrite map_map. apply map_ext. intro c.
  destruct (isAlnum c) eqn:E; [rewrite E|]; reflexivity.
Qed.

(** X9. Sanitising is idempotent: a title that has been sanitised is left
    as it is by sanitising it again, so a file name's title part can be
    fed back as a title. *)
Theorem sanitizedTitle_idempotent :
  forall conversationTitle : jsstring,
    sanitizedTitle (sanitizedTitle conversationTitle)
    = sanitizedTitle conversationTitle.
Proof.
  intro t. unfold sanitizedTitle, substring. cbn [Nat.max Nat.min Nat.sub skipn].
  unfold replaceNonAlnum at 1. rewrite <- firstn_map.
  fold (replaceNonAlnum (replaceNonAlnum t)).
  rewrite replaceNonAlnum_idempotent, firstn_firstn. reflexivity.
Qed.

(** ** The button *)

(** X10. When the button is enabled, that is when no export is running and
    there is a message, a click saves exactly one document, of at least one
    page, under the sanitised file name, then reports success and clears
    the exporting flag; the error toast of the empty transcript cannot be
    reached through the button. *)
Theorem enabled_button_saves :
  forall (env : Env) (isExporting : bool) (props : ExportConversationPDFProps),
    disabled (view isExporting props) = false ->
    isExporting = false
    /\ exportToPDF env props
       = [SetIsExporting true;
          Save (filename env (conversationTitle props)) (doc (render env props));
          ToastSuccess (js "Conversation exported successfully!");
          SetIsExporting false]
    /\ (1 <= pageCount (doc (render env props)))%nat.
Proof.
  intros env isExporting props H. cbn in H.
  apply orb_false_elim in H. destruct H as [-> H].
  split; [reflexivity|]. split.
  - unfold exportToPDF. rewrite H. reflexivity.
  - destruct (render_items env props) as [_ E].
    destruct (layout_keeps_pages env props) as [P _].
    rewrite E. exact P.
Qed.

Lemma enabled_button_saves_witness :
  false = false
  /\ exportToPDF A4.env (A4.request [A4.hello])
     = [SetIsExporting true;
        Save (filename A4.env (conversationTitle (A4.request [A4.hello])))
             (doc (render A4.env (A4.request [A4.hello])));
        ToastSuccess (js "Conversation exported successfully!");
        SetIsExporting false]
  /\ (1 <= pageCount (doc (render A4.env (A4.request [A4.hello]))))%nat.
Proof.
  apply (enabled_button_saves A4.env false (A4.request [A4.hello])).
  reflexivity.
Defined.

(** ** How far the cursor passes the bound *)

(** X11. On a page at least 60 high the cursor is never more than 9 below
    [pageHeight - margin - 10] when a message ends, from whatever state the
    message starts, and so at the end of the layout pass: the unchecked
    spacing adds up to 9 at most. *)
Theorem cursor_passes_bound_by_9_at_most :
  forall (env : Env) (props : ExportConversationPDFProps),
    60 <= pageHeight env ->
    yPosition (run (layout env props) initialState) <= usableBottom env + 9
    /\ forall (userName : jsstring) (m : Message) (st : State),
         yPosition (run (renderMessage env userName m) st)
         <= usableBottom env + 9.
Proof.
  intros env props tall.
  assert (T : forall st : State, Safe (fun _ => True) st).
  { intro st. apply Forall_forall. intros; exact Logic.I. }
  split.
  - destruct (slack_layout env tall (fun _ => True) (fun _ _ => Logic.I)
                props initialState (T _)) as [_ B].
    unfold run. lra.
  - intros userName m st.
    destruct (slack_renderMessage env tall (fun _ => True) (fun _ _ => Logic.I)
                userName m st (T _)) as [_ B].
    unfold run. lra.
Qed.

Lemma cursor_passes_bound_by_9_at_most_witness :
  yPosition (run (layout A4.env (A4.request [A4.spacer])) initialState)
  <= usableBottom A4.env + 9
  /\ forall (userName : jsstring) (m : Message) (st : State),
       yPosition (run (renderMessage A4.env userName m) st)
       <= usableBottom A4.env + 9.
Proof.
  apply (cursor_passes_bound_by_9_at_most A4.env (A4.request [A4.spacer])).
  unfold Qle. cbn. lia.
Defined.

(** ** The shape of the tokenizer's output *)

Lemma noAdjacentPlain_snoc (parts : list Part) (q : Part) :
  noAdjacentPlain parts ->
  lastBold parts \/ bold q = true ->
  noAdjacentPlain (parts ++ [q]).
Proof.
  unfold lastBold.
  induction parts as [|p tl IH]; intros A H; [exact Logic.I|].
  destruct tl as [|t tl'].
  - cbn in *. split; [exact H|exact Logic.I].
  - destruct A as [Hpt A]. cbn [app]. split; [exact Hpt|].
    apply IH; [exact A|]. exact H.
Qed.

Lemma lastBold_snoc (parts : list Part) (q : Part) :
  bold q = true -> lastBold (parts ++ [q]).
Proof. intro H. unfold lastBold. rewrite last_last. exact H. Qed.

Lemma exec_plain_before (line : jsstring) (lastIndex : nat) (m : BoldRegex.Match) :
  BoldRegex.exec line lastIndex = Some m ->
  length (substring line lastIndex (BoldRegex.index m))
  = (BoldRegex.index m - lastIndex)%nat.
Proof.
  intro E.
  destruct (BoldRegexFacts.exec_sound _ _ _ E) as (pre & rest & Hs & Hi & _).
  rewrite Hi, substring_forward, Hs, <- (Nat.add_0_r (length pre)).
  rewrite firstn_past. cbn [firstn]. rewrite app_nil_r. lia.
Qed.

Lemma tokenizeLoop_shape (fuel : nat) (line : jsstring) :
  forall (lastIndex : nat) (parts : list Part),
    noAdjacentPlain parts /\ lastBold parts /\ Forall plainHasText parts ->
    noAdjacentPlain (fst (tokenizeLoop fuel line lastIndex parts))
    /\ lastBold (fst (tokenizeLoop fuel line lastIndex parts))
    /\ Forall plainHasText (fst (tokenizeLoop fuel line lastIndex parts)).
Proof.
  induction fuel as [|fuel IH]; intros li parts H; cbn [tokenizeLoop];
    [exact H|].
  destruct (BoldRegex.exec line li) as [m|] eqn:E; [|exact H]. cbv zeta.
  apply IH. destruct H as (A & B & C).
  assert (P : noAdjacentPlain
                (if (li <? BoldRegex.index m)%nat
                 then parts ++ [plainPart (substring line li (BoldRegex.index m))]
                 else parts)
              /\ Forall plainHasText
                   (if (li <? BoldRegex.index m)%nat
                    then parts ++ [plainPart (substring line li (BoldRegex.index m))]
                    else parts)).
  { destruct (li <? BoldRegex.index m)%nat eqn:L; [|auto].
    apply Nat.ltb_lt in L. split.
    - apply noAdjacentPlain_snoc; auto.
    - apply Forall_app. split; [exact C|].
      constructor; [|constructor]. intros _ N.
      pose proof (exec_plain_before _ _ _ E) as Hl.
      cbn [text plainPart] in N. rewrite N in Hl. cbn in Hl. lia. }
  destruct P as [P1 P2]. repeat split.
  - apply noAdjacentPlain_snoc; [exact P1|right; reflexivity].
  - apply lastBold_snoc. reflexivity.
  - apply Forall_app. split; [exact P2|].
    constructor; [discriminate|constructor].
Qed.

(** X12. The runs of a line never hold two plain runs in a row, and for a
    line that is not empty no plain run is empty: text between two pairs,
    before the first and after the last one becomes a plain run only when
    there is some.  (A bold run can be empty, for [****].) *)
Theorem tokenize_runs_shape :
  forall line : jsstring,
    noAdjacentPlain (tokenize line)
    /\ (line <> [] -> Forall plainHasText (tokenize line)).
Proof.
  intro line. unfold tokenize.
  pose proof (tokenizeLoop_shape (S (length line)) line 0 []
                (conj Logic.I (conj eq_refl (Forall_nil _)))) as H.
  destruct (tokenizeLoop (S (length line)) line 0 []) as [parts li].
  cbn [fst] in H. destruct H as (A & B & C).
  assert (P : noAdjacentPlain
                (if (li <? length line)%nat
                 then parts ++ [plainPart (substringFrom line li)] else parts)
              /\ Forall plainHasText
                   (if (li <? length line)%nat
                    then parts ++ [plainPart (substringFrom line li)]
                    else parts)).
  { destruct (li <? length line)%nat eqn:L; [|auto].
    apply Nat.ltb_lt in L. split.
    - apply noAdjacentPlain_snoc; auto.
    - apply Forall_app. split; [exact C|].
      constructor; [|constructor]. intros _ N.
      cbn [text plainPart] in N. unfold substringFrom in N.
      apply (f_equal (@length _)) in N. rewrite length_skipn in N.
      cbn in N. lia. }
  destruct P as [P1 P2].
  destruct (if (li <? length line)%nat
            then parts ++ [plainPart (substringFrom line li)] else parts)
    as [|p ps]; cbn [length Nat.eqb app].
  - split; [exact Logic.I|]. intro NE.
    constructor; [|constructor]. intros _. exact NE.
  - split; [exact P1|]. intros _. exact P2.
Qed.
